(** * The dynamic LSTM notebook (4_Dynamic_LSTM_RNN.ipynb)

    A shallow embedding of the notebook's own Python code: the global
    configuration, [generateData], the graph the cells build, and the
    training session with its two nested loops.  Calls into NumPy's array
    primitives are given their array semantics on lists; calls whose results
    the notebook cannot know (the random generator, the session, printing and
    plotting) are answered by an arbitrary environment. *)

From Stdlib Require Import String.
From Stdlib Require Import ZArith List Lia Bool.
Import ListNotations.
Open Scope Z_scope.

Set Implicit Arguments.

(** ** Global configuration parameters (second cell) *)

Definition n_epochs : Z := 20.
Definition total_series_length : Z := 50000.
Definition truncated_backprop_steps : Z := 15.
Definition state_size : Z := 4.
Definition n_classes : Z := 2.
Definition echo_step : Z := 3.
Definition batch_size : Z := 5.
(** [eta = 0.01], kept as the decimal fraction 1/100. *)
Definition eta : Z * Z := (1, 100).
(** Python's [//] is floor division, which is [Z.div]. *)
Definition n_batches : Z :=
  total_series_length / batch_size / truncated_backprop_steps.
Definition n_hidden : Z := 20.

(** ** NumPy arrays

    A one-dimensional array is a list, a two-dimensional one a list of rows.
    Exceptions carry the name of their Python class. *)

Definition exn := string.
Definition ValueError : exn := "ValueError"%string.

Definition matrix (A : Type) := list (list A).

Definition shape2 {A} (m : matrix A) (rows cols : Z) : Prop :=
  Z.of_nat (length m) = rows /\
  Forall (fun r => Z.of_nat (length r) = cols) m.

(** Row-major flattening, [a.reshape(-1)]. *)
Definition ravel {A} (m : matrix A) : list A := concat m.

(** [a[i]] for an index known to be in range; 0 stands for "no element". *)
Definition item (a : list Z) (i : Z) : Z := nth (Z.to_nat i) a 0.

(** [range(n)] *)
Definition range (n : Z) : list Z := map Z.of_nat (seq 0 (Z.to_nat n)).
Arguments range : simpl never.

(** [np.array(a)]: a fresh copy; lists are values, so the copy is the list. *)
Definition np_array {A} (a : list A) : list A := a.

(** [np.roll(a, shift)] on a one-dimensional array: a new array in which
    the element at position [i] moves to position [(i + shift) % n]. *)
Definition np_roll {A} (a : list A) (shift : Z) : list A :=
  let n := Z.of_nat (length a) in
  if n =? 0 then a
  else
    let k := (length a - Z.to_nat (shift mod n))%nat in
    skipn k a ++ firstn k a.

(** The bounds of a slice [lo:hi] of an array of length [n], as Python's
    [slice.indices] computes them for step 1: a negative bound counts from
    the end, and both are clamped to [0, n]. *)
Definition slice_bound (n : Z) (i : Z) : nat :=
  Z.to_nat (if i <? 0 then Z.max 0 (i + n) else Z.min i n).

(** [a[lo:hi]] *)
Definition slice {A} (a : list A) (lo hi : Z) : list A :=
  let n := Z.of_nat (length a) in
  let l := slice_bound n lo in
  let h := slice_bound n hi in
  firstn (h - l) (skipn l a).

(** [a[lo:hi] = v] with a scalar [v], on a copy of [a] (lists are values;
    [np.roll] has already returned a fresh array, so no other name sees the
    assignment). *)
Definition slice_fill {A} (a : list A) (lo hi : Z) (v : A) : list A :=
  let n := Z.of_nat (length a) in
  let l := slice_bound n lo in
  let h := slice_bound n hi in
  firstn l a ++ repeat v (h - l) ++ skipn (Nat.max l h) a.

(** [m[:, lo:hi]] *)
Definition col_slice {A} (m : matrix A) (lo hi : Z) : matrix A :=
  map (fun row => slice row lo hi) m.

Fixpoint chunks {A} (width : nat) (rows : nat) (a : list A) : matrix A :=
  match rows with
  | O => []
  | S r => firstn width a :: chunks width r (skipn width a)
  end.

(** [a.reshape((rows, -1))] on a one-dimensional array: NumPy infers the
    second dimension as [size / rows] and raises [ValueError] when [rows] is
    not a positive divisor of the size. *)
Definition np_reshape_rows {A} (a : list A) (rows : Z) : exn + matrix A :=
  let n := Z.of_nat (length a) in
  if (0 <? rows) && (n mod rows =? 0)
  then inr (chunks (Z.to_nat (n / rows)) (Z.to_nat rows) a)
  else inl ValueError.

(** The body of [generateData] after the random draw [x]. *)
Definition generateData_from (draw : list Z) : exn + (matrix Z * matrix Z) :=
  let x := np_array draw in
  let y := np_roll x echo_step in
  let y := slice_fill y 0 echo_step 0 in
  match np_reshape_rows x batch_size with
  | inl e => inl e
  | inr x =>
      match np_reshape_rows y batch_size with
      | inl e => inl e
      | inr y => inr (x, y)
      end
  end.

(** ** The computation graph

    The TensorFlow calls of the graph-building cells return symbolic
    objects; each is recorded as the call that made it.  Placeholders and
    variables are distinct objects even when their arguments agree, so they
    carry their creation index. *)

Inductive dtype := float32 | int32.

Inductive tf : Type :=
| tf_placeholder (id : nat) (dt : dtype) (shape : list (option Z))
| LSTMStateTuple (c h : tf)
| LSTMCell (num_units : Z)
| tf_expand_dims (input : tf) (axis : Z)
| tf_nn_dynamic_rnn (cell inputs initial_state : tf)
| rnn_outputs (rnn : tf)
| rnn_final_state (rnn : tf)
| tf_reshape (tensor : tf) (shape : list Z)
| tf_random_normal (shape : list Z)
| tf_Variable (id : nat) (initial_value : tf)
| tf_matmul (a b : tf)
| tf_add (a b : tf)
| sparse_softmax_cross_entropy_with_logits (labels logits : tf)
| tf_reduce_mean (input : tf)
| AdamOptimizer (learning_rate : Z * Z)
| minimize (opt loss : tf)
| tf_global_variables_initializer.

(** Fourth cell.  A [shape] argument lists one entry per dimension; TensorFlow
    also admits [None] there for a dimension left open, which the notebook
    does not use. *)
Definition X_placeholder : tf :=
  tf_placeholder 0 float32 [Some batch_size; Some truncated_backprop_steps].
Definition y_placeholder : tf :=
  tf_placeholder 1 int32 [Some batch_size; Some truncated_backprop_steps].
Definition cell_state : tf :=
  tf_placeholder 2 float32 [Some batch_size; Some n_hidden].
Definition hidden_state : tf :=
  tf_placeholder 3 float32 [Some batch_size; Some n_hidden].
Definition init_state : tf := LSTMStateTuple cell_state hidden_state.

(** Fifth cell. *)
Definition lstm_cell : tf := LSTMCell n_hidden.
Definition rnn : tf :=
  tf_nn_dynamic_rnn lstm_cell (tf_expand_dims X_placeholder (-1)) init_state.
Definition outputs : tf := rnn_outputs rnn.
Definition final_state : tf := rnn_final_state rnn.

(** Sixth cell. *)
Definition temp : tf := tf_reshape outputs [-1; n_hidden].
Definition y_temp : tf := tf_reshape y_placeholder [-1].

(** Seventh cell. *)
Definition V : tf := tf_Variable 0 (tf_random_normal [n_hidden; n_classes]).
Definition c : tf := tf_Variable 1 (tf_random_normal [n_classes]).
Definition l : tf := tf_add (tf_matmul temp V) c.

(** Eighth cell. *)
Definition loss : tf :=
  tf_reduce_mean (sparse_softmax_cross_entropy_with_logits y_temp l).
Definition optimizer : tf := minimize (AdamOptimizer eta) loss.

(** *** Feeding a placeholder

    [Session.run] refuses a fed value whose shape is not compatible with the
    placeholder's declared shape: the ranks must agree and every declared
    dimension must equal the fed one. *)
Fixpoint is_compatible_with (declared : list (option Z)) (fed : list Z) : bool :=
  match declared, fed with
  | [], [] => true
  | d :: ds, n :: ns =>
      match d with None => true | Some k => k =? n end
      && is_compatible_with ds ns
  | _, _ => false
  end.

Definition accepts_feed (p : tf) (fed_shape : list Z) : bool :=
  match p with
  | tf_placeholder _ _ declared => is_compatible_with declared fed_shape
  | _ => false
  end.

(** A graph is dynamic in the sequence length when its input placeholder
    takes batches of two different lengths. *)
Definition accepts_varying_length (p : tf) : Prop :=
  exists t1 t2 : Z,
    t1 <> t2 /\
    accepts_feed p [batch_size; t1] = true /\
    accepts_feed p [batch_size; t2] = true.

(** *** Tensor values

    A tensor value is its shape with its entries in row-major order. *)
Record tensor (A : Type) := Tensor { dims : list Z; data : list A }.

Definition size_of (shape : list Z) : Z := fold_right Z.mul 1 shape.

Definition well_shaped {A} (t : tensor A) (shape : list Z) : Prop :=
  dims t = shape /\ Z.of_nat (length (data t)) = size_of shape.

(** The shape [tf.reshape] gives a tensor of [size] entries: one entry may
    be -1 and is inferred. *)
Definition resolve_shape (size : Z) (shape : list Z) : option (list Z) :=
  let known := size_of (filter (fun d => 0 <=? d) shape) in
  match length (filter (fun d => d <? 0) shape) with
  | O => if known =? size then Some shape else None
  | S O =>
      if (known =? 0) || negb (size mod known =? 0) then None
      else Some (map (fun d => if d <? 0 then size / known else d) shape)
  | _ => None
  end.

Definition expand_shape (shape : list Z) (axis : Z) : option (list Z) :=
  let rank := Z.of_nat (length shape) in
  let pos := if axis <? 0 then rank + 1 + axis else axis in
  if (0 <=? pos) && (pos <=? rank)
  then Some (firstn (Z.to_nat pos) shape ++ [1] ++ skipn (Z.to_nat pos) shape)
  else None.

Fixpoint map2 {A B C} (f : A -> B -> C) (xs : list A) (ys : list B) : list C :=
  match xs, ys with
  | x :: xs', y :: ys' => f x y :: map2 f xs' ys'
  | _, _ => []
  end.

(** Rows of width [w] of a row-major buffer. *)
Definition rows_of {A} (w : Z) (buf : list A) : matrix A :=
  chunks (Z.to_nat w) (Z.to_nat (Z.of_nat (length buf) / w)) buf.

(** *** Evaluating the loss

    Floating-point numbers are an abstract type [F] with its zero, sum and
    product.  What the framework supplies whole stays a parameter: the
    unrolled LSTM, the cross entropy of one row of logits against one label,
    the mean of a buffer, and the conversion of a fed integer array to
    [float32]. *)
Section Evaluation.
Variable F : Type.
Variable f0 : F.
Variables fadd fmul : F -> F -> F.
Variable of_int : Z -> F.
Variable lib_dynamic_rnn :
  Z -> tensor F -> tensor F -> tensor F ->
  option (tensor F * (tensor F * tensor F)).
Variable lib_xent : Z -> list F -> F.
Variable lib_mean : list F -> F.

Inductive value :=
| IntT (t : tensor Z)
| FloatT (t : tensor F)
| StateT (c h : tensor F)
| RnnT (outs : tensor F) (c h : tensor F).

(** What a run is given: the fed value of each placeholder and the current
    value of each variable, by creation index. *)
Record bindings := Bindings {
  fed : nat -> option value;
  variable_value : nat -> option (tensor F)
}.

Definition dot (u v : list F) : F := fold_right fadd f0 (map2 fmul u v).

Definition column (j : nat) (m : matrix F) : list F :=
  map (fun row => nth j row f0) m.

(** One row times a matrix given by its rows, [n] columns wide. *)
Definition vec_mat (n : Z) (u : list F) (m : matrix F) : list F :=
  map (fun j => dot u (column j m)) (seq 0 (Z.to_nat n)).

Definition vec_add (u v : list F) : list F := map2 fadd u v.

Definition matmul (a b : tensor F) : option (tensor F) :=
  match dims a, dims b with
  | [m; k], [k'; n] =>
      if k =? k'
      then Some (Tensor [m; n]
             (concat (map (fun u => vec_mat n u (rows_of n (data b)))
                          (rows_of k (data a)))))
      else None
  | _, _ => None
  end.

(** Addition as the notebook uses it: a vector added to every row of a
    matrix of the same width. *)
Definition bias_add (a b : tensor F) : option (tensor F) :=
  match dims a, dims b with
  | [m; n], [n'] =>
      if n =? n'
      then Some (Tensor [m; n]
             (concat (map (fun u => vec_add u (data b))
                          (rows_of n (data a)))))
      else None
  | _, _ => None
  end.

Definition sparse_xent (labels : tensor Z) (logits : tensor F)
  : option (tensor F) :=
  match dims labels, dims logits with
  | [m], [m'; n] =>
      if m =? m'
      then Some (Tensor [m]
             (map2 lib_xent (data labels) (rows_of n (data logits))))
      else None
  | _, _ => None
  end.

Definition reshape_value {A} (t : tensor A) (shape : list Z)
  : option (tensor A) :=
  match resolve_shape (size_of (dims t)) shape with
  | Some s => Some (Tensor s (data t))
  | None => None
  end.

Definition feed_value (dt : dtype) (declared : list (option Z)) (v : value)
  : option value :=
  match v, dt with
  | IntT t, int32 =>
      if is_compatible_with declared (dims t) then Some (IntT t) else None
  | IntT t, float32 =>
      if is_compatible_with declared (dims t)
      then Some (FloatT (Tensor (dims t) (map of_int (data t)))) else None
  | FloatT t, float32 =>
      if is_compatible_with declared (dims t) then Some (FloatT t) else None
  | _, _ => None
  end.

Fixpoint eval (b : bindings) (n : tf) : option value :=
  match n with
  | tf_placeholder id dt declared =>
      match fed b id with
      | Some v => feed_value dt declared v
      | None => None
      end
  | LSTMStateTuple sc sh =>
      match eval b sc, eval b sh with
      | Some (FloatT tc), Some (FloatT th) => Some (StateT tc th)
      | _, _ => None
      end
  | tf_expand_dims input axis =>
      match eval b input with
      | Some (FloatT t) =>
          match expand_shape (dims t) axis with
          | Some s => Some (FloatT (Tensor s (data t)))
          | None => None
          end
      | _ => None
      end
  | tf_nn_dynamic_rnn (LSTMCell num_units) inputs initial_state =>
      match eval b inputs, eval b initial_state with
      | Some (FloatT x), Some (StateT tc th) =>
          match lib_dynamic_rnn num_units x tc th with
          | Some (outs, (fc, fh)) => Some (RnnT outs fc fh)
          | None => None
          end
      | _, _ => None
      end
  | rnn_outputs r =>
      match eval b r with
      | Some (RnnT outs _ _) => Some (FloatT outs)
      | _ => None
      end
  | rnn_final_state r =>
      match eval b r with
      | Some (RnnT _ fc fh) => Some (StateT fc fh)
      | _ => None
      end
  | tf_reshape t shape =>
      match eval b t with
      | Some (FloatT v) => option_map FloatT (reshape_value v shape)
      | Some (IntT v) => option_map IntT (reshape_value v shape)
      | _ => None
      end
  | tf_Variable id _ => option_map FloatT (variable_value b id)
  | tf_matmul x y =>
      match eval b x, eval b y with
      | Some (FloatT vx), Some (FloatT vy) => option_map FloatT (matmul vx vy)
      | _, _ => None
      end
  | tf_add x y =>
      match eval b x, eval b y with
      | Some (FloatT vx), Some (FloatT vy) => option_map FloatT (bias_add vx vy)
      | _, _ => None
      end
  | sparse_softmax_cross_entropy_with_logits labels logits =>
      match eval b labels, eval b logits with
      | Some (IntT vl), Some (FloatT vg) => option_map FloatT (sparse_xent vl vg)
      | _, _ => None
      end
  | tf_reduce_mean input =>
      match eval b input with
      | Some (FloatT v) => Some (FloatT (Tensor [] [lib_mean (data v)]))
      | _ => None
      end
  | _ => None
  end.

(** The affine map of the seventh cell on one row of LSTM outputs. *)
Definition logits_row (Vv cv : tensor F) (h : list F) : list F :=
  vec_add (vec_mat n_classes h (rows_of n_classes (data Vv))) (data cv).
End Evaluation.

(** ** The notebook as a program

    Every call whose answer lies outside the notebook is a [call]; a program
    issues calls and continues with their answers.  There is one [with]
    statement, around the training session. *)

Definition session := Z.

Section Program.
Variable F : Type.
Variable f0 : F.

(** A value handed to [feed_dict]. *)
Inductive ndarray :=
| IntArr (m : matrix Z)
| FloatArr (m : matrix F).

(** An argument of [print]. *)
Inductive pyval :=
| PyStr (s : string)
| PyInt (z : Z)
| PyFloat (x : F).

(** The [(c, h)] pair of an LSTM state, as NumPy arrays. *)
Definition lstm_state : Type := matrix F * matrix F.

Inductive call : Type -> Type :=
| graph_op (obj : tf) : call unit
| tf_Session : call session
| Session_exit (sess : session) (pending : option exn) : call unit
| sess_run_op (sess : session) (op : tf) : call unit
| sess_run (sess : session) (fetches : tf * tf * tf)
           (feed_dict : list (tf * ndarray)) : call (F * unit * lstm_state)
| np_random_choice (a size : Z) : call (list Z)
| print (args : list pyval) : call unit
| plt_figure (figsize : Z * Z) : call unit
| plt_plot (ys : list F) : call unit
| plt_xlabel (s : string) : call unit
| plt_ylabel (s : string) : call unit.

Inductive prog (A : Type) : Type :=
| Ret (a : A)
| Raise (e : exn)
| Call {X : Type} (c : call X) (k : X -> prog A)
| WithSession {B : Type} (sess : session) (body : prog B) (k : B -> prog A).

Arguments Ret {A} a.
Arguments Raise {A} e.

Fixpoint bind {A B} (p : prog A) (f : A -> prog B) : prog B :=
  match p with
  | Ret a => f a
  | Raise e => Raise e
  | Call c k => Call c (fun x => bind (k x) f)
  | WithSession sess body k => WithSession sess body (fun b => bind (k b) f)
  end.

Definition call_ {X} (c : call X) : prog X := Call c (fun x => Ret x).

Definition lift {A} (r : exn + A) : prog A :=
  match r with inl e => Raise e | inr a => Ret a end.

(** [for i in items: s = body i s] *)
Fixpoint for_each {S} (items : list Z) (body : Z -> S -> prog S) (s : S)
  : prog S :=
  match items with
  | [] => Ret s
  | i :: rest => bind (body i s) (for_each rest body)
  end.

(** *** Running a program

    The environment answers each call from its own state [W], with a value
    or an exception.  A run yields the outcome, the final state of the
    environment and the trace of what happened. *)
Inductive event :=
| Ev {X : Type} (c : call X) (r : exn + X)
| Raised (e : exn).

Section Run.
Variable W : Type.
Variable env : forall X, call X -> W -> (exn + X) * W.

Fixpoint run {A} (p : prog A) (w : W) : (exn + A) * W * list event :=
  match p with
  | Ret a => (inr a, w, [])
  | Raise e => (inl e, w, [Raised e])
  | Call c k =>
      match env c w with
      | (inl e, w1) => (inl e, w1, [Ev c (inl e)])
      | (inr x, w1) =>
          let '(r, w2, t) := run (k x) w1 in (r, w2, Ev c (inr x) :: t)
      end
  | WithSession sess body k =>
      let '(rb, w1, t1) := run body w in
      let pending := match rb with inl e => Some e | inr _ => None end in
      let leave := Session_exit sess pending in
      match env leave w1 with
      | (inl e2, w2) => (inl e2, w2, t1 ++ [Ev leave (inl e2)])
      | (inr u, w2) =>
          match rb with
          | inl e => (inl e, w2, t1 ++ [Ev leave (inr u)])
          | inr b =>
              let '(r, w3, t3) := run (k b) w2 in
              (r, w3, t1 ++ Ev leave (inr u) :: t3)
          end
      end
  end.

Definition outcome {A} (p : prog A) (w : W) : exn + A := fst (fst (run p w)).
Definition trace {A} (p : prog A) (w : W) : list event := snd (run p w).
Definition completes {A} (p : prog A) (w : W) : bool :=
  match outcome p w with inr _ => true | inl _ => false end.
End Run.

Notation "x <- p ;; q" := (bind p (fun x => q))
  (at level 61, p at next level, right associativity).
Notation "p ;;; q" := (bind p (fun _ => q))
  (at level 61, right associativity).

(** A graph-building call: it may raise; when it returns, it returns the
    object it built. *)
Definition build (obj : tf) : prog tf := Call (graph_op obj) (fun _ => Ret obj).

(** *** Third cell: [generateData] *)
Definition generateData : prog (matrix Z * matrix Z) :=
  x <- call_ (np_random_choice n_classes total_series_length) ;;
  lift (generateData_from x).

(** *** Fourth to eighth cell: the graph, in the order of the calls *)
Definition cell_placeholders : prog unit :=
  build X_placeholder ;;;
  build y_placeholder ;;;
  build cell_state ;;;
  build hidden_state ;;;
  build init_state ;;;
  Ret tt.

Definition cell_forward : prog unit :=
  build lstm_cell ;;;
  build (tf_expand_dims X_placeholder (-1)) ;;;
  build rnn ;;;
  Ret tt.

Definition cell_reshape : prog unit :=
  build temp ;;;
  build y_temp ;;;
  Ret tt.

Definition cell_logits : prog unit :=
  build (tf_random_normal [n_hidden; n_classes]) ;;;
  build V ;;;
  build (tf_random_normal [n_classes]) ;;;
  build c ;;;
  build (tf_matmul temp V) ;;;
  build l ;;;
  Ret tt.

Definition cell_loss : prog unit :=
  build (sparse_softmax_cross_entropy_with_logits y_temp l) ;;;
  build loss ;;;
  build (AdamOptimizer eta) ;;;
  build optimizer ;;;
  Ret tt.

(** *** Training cell *)

(** [np.zeros((rows, cols))] *)
Definition np_zeros (rows cols : Z) : matrix F :=
  repeat (repeat f0 (Z.to_nat cols)) (Z.to_nat rows).

(** The variables the inner loop assigns: [training_losses],
    [_current_cell_state] and [_current_hidden_state]. *)
Definition loop_vars : Type := list F * matrix F * matrix F.

Definition batch_body (sess : session) (X_data y_data : matrix Z)
    (batch : Z) (vars : loop_vars) : prog loop_vars :=
  let '(training_losses, _current_cell_state, _current_hidden_state) := vars in
  let start_idx := batch * truncated_backprop_steps in
  let end_idx := start_idx + truncated_backprop_steps in
  let batch_x := col_slice X_data start_idx end_idx in
  let batch_y := col_slice y_data start_idx end_idx in
  r <- call_ (sess_run sess (loss, optimizer, final_state)
                [ (X_placeholder, IntArr batch_x);
                  (y_placeholder, IntArr batch_y);
                  (cell_state, FloatArr _current_cell_state);
                  (hidden_state, FloatArr _current_hidden_state) ]) ;;
  let '(_total_loss, _optimizer, _final_state) := r in
  let '(_current_cell_state, _current_hidden_state) := _final_state in
  let training_losses := training_losses ++ [_total_loss] in
  (if batch mod 100 =? 0
   then call_ (print [PyStr "Step: "; PyInt batch;
                      PyStr "Loss: "; PyFloat _total_loss])
   else Ret tt) ;;;
  Ret (training_losses, _current_cell_state, _current_hidden_state).

Definition epoch_body (sess : session) (epoch : Z)
    (training_losses : list F) : prog (list F) :=
  call_ (print [PyStr EmptyString]) ;;;
  call_ (print [PyStr "Epoch: "; PyInt epoch]) ;;;
  data <- generateData ;;
  let '(X_data, y_data) := data in
  let _current_cell_state := np_zeros batch_size n_hidden in
  let _current_hidden_state := np_zeros batch_size n_hidden in
  vars <- for_each (range n_batches) (batch_body sess X_data y_data)
            (training_losses, _current_cell_state, _current_hidden_state) ;;
  let '(training_losses, _, _) := vars in
  Ret training_losses.

Definition session_body (sess : session) : prog (list F) :=
  init <- build tf_global_variables_initializer ;;
  call_ (sess_run_op sess init) ;;;
  for_each (range n_epochs) (epoch_body sess) [].

Definition cell_training : prog (list F) :=
  Call tf_Session (fun sess =>
    WithSession sess (session_body sess) (fun training_losses =>
      Ret training_losses)).

(** *** Last cell: the plot *)
Definition cell_plot (training_losses : list F) : prog unit :=
  call_ (plt_figure (10, 8)) ;;;
  call_ (plt_plot training_losses) ;;;
  call_ (plt_xlabel "Number of training iterations") ;;;
  call_ (plt_ylabel "Error") ;;;
  Ret tt.

Definition notebook : prog unit :=
  cell_placeholders ;;;
  cell_forward ;;;
  cell_reshape ;;;
  cell_logits ;;;
  cell_loss ;;;
  training_losses <- cell_training ;;
  cell_plot training_losses.

(** *** Reading a trace *)

(** The exception an event raised, if it raised one. *)
Definition raised_by (ev : event) : option exn :=
  match ev with
  | Ev _ (inl e) => Some e
  | Ev _ (inr _) => None
  | Raised e => Some e
  end.

Fixpoint last_raised (tr : list event) : option exn :=
  match tr with
  | [] => None
  | ev :: rest =>
      match last_raised rest with
      | Some e => Some e
      | None => raised_by ev
      end
  end.

(** The [with] statement leaving the session while an exception is
    pending. *)
Definition leaves_session (ev : event) : bool :=
  match ev with
  | Ev c _ =>
      match c with
      | Session_exit _ (Some _) => true
      | _ => false
      end
  | Raised _ => false
  end.

(** Nothing follows the first exception of a trace but the [with]
    statement leaving the session. *)
Fixpoint stops_at_raise (tr : list event) : bool :=
  match tr with
  | [] => true
  | ev :: rest =>
      match raised_by ev with
      | Some _ => forallb leaves_session rest
      | None => stops_at_raise rest
      end
  end.

(** Every exception an event of the trace raised is the outcome of the run. *)
Definition reaches_top_unchanged A (tr : list event) (out : exn + A) : Prop :=
  forall ev e, In ev tr -> raised_by ev = Some e -> out = inl e.

(** How a run that ends in the error [e_top] ends: one event raises, with
    nothing raised before it, and either the trace ends there and [e_top] is
    what it raised, or the [with] statement then leaves the session with that
    exception pending and [e_top] is that exception unless leaving the
    session raises one of its own. *)
Definition stops_with (tr : list event) (e_top : exn) : Prop :=
  exists pre ev e,
    last_raised pre = None /\
    raised_by ev = Some e /\
    ((tr = pre ++ [ev] /\ e_top = e) \/
     (exists sess r,
        tr = pre ++ [ev; Ev (Session_exit sess (Some e)) r] /\
        e_top = match r with inl e2 => e2 | inr _ => e end)).

(** A [sess.run] of the training loop that returned: what was fetched,
    what was fed and what came back. *)
Record run_record := RunRecord {
  fetches : tf * tf * tf;
  fed_dict : list (tf * ndarray);
  fetched : F * unit * lstm_state
}.

Definition run_of (ev : event) : option run_record :=
  match ev with
  | Ev c r =>
      match c in call X return exn + X -> option run_record with
      | sess_run _ fs fd =>
          fun r => match r with
                   | inr v => Some (RunRecord fs fd v)
                   | inl _ => None
                   end
      | _ => fun _ => None
      end r
  | Raised _ => None
  end.

Definition keep {A B} (f : A -> option B) (xs : list A) : list B :=
  flat_map (fun x => match f x with Some y => [y] | None => [] end) xs.

Definition runs_of (tr : list event) : list run_record := keep run_of tr.

Definition loss_of (r : run_record) : F := fst (fst (fetched r)).
Definition state_of (r : run_record) : lstm_state := snd (fetched r).

(** The value [feed_dict] gives a placeholder. *)
Definition fed_to (p : tf) (fd : list (tf * ndarray)) : option ndarray :=
  match p with
  | tf_placeholder id _ _ =>
      option_map snd
        (find (fun kv => match fst kv with
                         | tf_placeholder i _ _ => Nat.eqb i id
                         | _ => false
                         end) fd)
  | _ => None
  end.

(** A chain of runs: the first is fed [st], each later one the state the
    run before it returned. *)
Fixpoint threaded (st : lstm_state) (rs : list run_record) : Prop :=
  match rs with
  | [] => True
  | r :: rest =>
      fed_to cell_state (fed_dict r) = Some (FloatArr (fst st)) /\
      fed_to hidden_state (fed_dict r) = Some (FloatArr (snd st)) /\
      threaded (state_of r) rest
  end.

(** The argument of every [plt.plot]. *)
Definition plot_of (ev : event) : option (list F) :=
  match ev with
  | Ev c _ =>
      match c with
      | plt_plot ys => Some ys
      | _ => None
      end
  | Raised _ => None
  end.

Definition plotted (tr : list event) : list (list F) := keep plot_of tr.

(** The draws [np.random.choice] returned. *)
Definition draw_of (ev : event) : option (list Z) :=
  match ev with
  | Ev c r =>
      match c in call X return exn + X -> option (list Z) with
      | np_random_choice _ _ =>
          fun r => match r with inr d => Some d | inl _ => None end
      | _ => fun _ => None
      end r
  | Raised _ => None
  end.

Definition draws_of (tr : list event) : list (list Z) := keep draw_of tr.

(** The inner loop as seen from outside: a batch is fed and its loss comes
    back, or a step line is printed. *)
Inductive step :=
| Fed (loss_value : F)
| Printed (batch : Z) (loss_value : F).

Definition step_line (args : list pyval) : option step :=
  match args with
  | [PyStr s1; PyInt batch; PyStr s2; PyFloat v] =>
      if String.eqb s1 "Step: " && String.eqb s2 "Loss: "
      then Some (Printed batch v) else None
  | _ => None
  end.

Definition step_of (ev : event) : option step :=
  match ev with
  | Ev c r =>
      match c in call X return exn + X -> option step with
      | sess_run _ _ _ =>
          fun r => match r with
                   | inr v => Some (Fed (fst (fst v)))
                   | inl _ => None
                   end
      | print args => fun _ => step_line args
      | _ => fun _ => None
      end r
  | Raised _ => None
  end.

Definition steps_of (tr : list event) : list step := keep step_of tr.

Definition is_fed (s : step) : bool :=
  match s with Fed _ => true | Printed _ _ => false end.
Definition is_printed (s : step) : bool := negb (is_fed s).

(** What one epoch of the inner loop shows when batch [b] returns the
    loss [v]. *)
Definition batch_steps (b : Z) (v : F) : list step :=
  Fed v :: (if b mod 100 =? 0 then [Printed b v] else []).

Definition epoch_steps (losses : list F) : list step :=
  concat (map2 batch_steps (range n_batches) losses).

(** *** Stages of the notebook *)
Inductive stage :=
| DataGeneration
| Placeholders
| LstmCell
| DynamicUnroll
| Reshape
| Loss
| Optimizer
| SessionLoop.

Definition stage_of_object (obj : tf) : option stage :=
  match obj with
  | tf_placeholder _ _ _ | LSTMStateTuple _ _ => Some Placeholders
  | LSTMCell _ => Some LstmCell
  | tf_expand_dims _ _ | tf_nn_dynamic_rnn _ _ _ => Some DynamicUnroll
  | tf_reshape _ _ => Some Reshape
  | tf_random_normal _ | tf_Variable _ _ | tf_matmul _ _ | tf_add _ _
  | sparse_softmax_cross_entropy_with_logits _ _
  | tf_reduce_mean _ => Some Loss
  | AdamOptimizer _ | minimize _ _ => Some Optimizer
  | tf_global_variables_initializer => Some SessionLoop
  | rnn_outputs _ | rnn_final_state _ => None
  end.

Definition stage_of (ev : event) : option stage :=
  match ev with
  | Ev c _ =>
      match c with
      | graph_op obj => stage_of_object obj
      | np_random_choice _ _ => Some DataGeneration
      | tf_Session | Session_exit _ _ | sess_run_op _ _
      | sess_run _ _ _ | print _ => Some SessionLoop
      | plt_figure _ | plt_plot _ | plt_xlabel _ | plt_ylabel _ => None
      end
  | Raised _ => None
  end.

Definition stage_eqb (a b : stage) : bool :=
  match a, b with
  | DataGeneration, DataGeneration | Placeholders, Placeholders
  | LstmCell, LstmCell | DynamicUnroll, DynamicUnroll
  | Reshape, Reshape | Loss, Loss | Optimizer, Optimizer
  | SessionLoop, SessionLoop => true
  | _, _ => false
  end.

(** Consecutive repetitions of a stage count once. *)
Fixpoint collapse (ss : list stage) : list stage :=
  match ss with
  | [] => []
  | s :: rest =>
      match rest with
      | s' :: _ => if stage_eqb s s' then collapse rest else s :: collapse rest
      | [] => [s]
      end
  end.

Definition stages_of (tr : list event) : list stage :=
  collapse (keep stage_of tr).

(** *** The trace of a completed run

    What a run that completes must have done, rebuilt from what the
    environment answered: per epoch the draw, the data [generateData] made of
    it and the answers of the session. *)
Definition batch_events (sess : session) (X_data y_data : matrix Z)
    (batch : Z) (st : lstm_state) (r : F * unit * lstm_state) : list event :=
  Ev (sess_run sess (loss, optimizer, final_state)
        [ (X_placeholder,
           IntArr (col_slice X_data (batch * truncated_backprop_steps)
                     (batch * truncated_backprop_steps + truncated_backprop_steps)));
          (y_placeholder,
           IntArr (col_slice y_data (batch * truncated_backprop_steps)
                     (batch * truncated_backprop_steps + truncated_backprop_steps)));
          (cell_state, FloatArr (fst st));
          (hidden_state, FloatArr (snd st)) ]) (inr r)
  :: (if batch mod 100 =? 0
      then [Ev (print [PyStr "Step: "; PyInt batch;
                       PyStr "Loss: "; PyFloat (fst (fst r))]) (inr tt)]
      else []).

Fixpoint batches_events (sess : session) (X_data y_data : matrix Z)
    (batches : list Z) (st : lstm_state) (rs : list (F * unit * lstm_state))
  : list event :=
  match batches, rs with
  | b :: batches', r :: rs' =>
      batch_events sess X_data y_data b st r
      ++ batches_events sess X_data y_data batches' (snd r) rs'
  | _, _ => []
  end.

Record epoch_log := EpochLog {
  drawn : list Z;
  X_of : matrix Z;
  y_of : matrix Z;
  answers : list (F * unit * lstm_state)
}.

Definition log_ok (lg : epoch_log) : Prop :=
  generateData_from (drawn lg) = inr (X_of lg, y_of lg) /\
  length (answers lg) = length (range n_batches).

Definition zero_state : lstm_state :=
  (np_zeros batch_size n_hidden, np_zeros batch_size n_hidden).

Definition epoch_events (sess : session) (epoch : Z) (lg : epoch_log)
  : list event :=
  [ Ev (print [PyStr EmptyString]) (inr tt);
    Ev (print [PyStr "Epoch: "; PyInt epoch]) (inr tt);
    Ev (np_random_choice n_classes total_series_length) (inr (drawn lg)) ]
  ++ batches_events sess (X_of lg) (y_of lg) (range n_batches)
       zero_state (answers lg).

Fixpoint epochs_events (sess : session) (epochs : list Z)
    (logs : list epoch_log) : list event :=
  match epochs, logs with
  | e :: epochs', lg :: logs' =>
      epoch_events sess e lg ++ epochs_events sess epochs' logs'
  | _, _ => []
  end.

Definition losses_of_log (lg : epoch_log) : list F :=
  map (fun r => fst (fst r)) (answers lg).

(** The runs one epoch of a completed trace holds. *)
Definition batch_feed (X_data y_data : matrix Z) (batch : Z) (st : lstm_state)
  : list (tf * ndarray) :=
  [ (X_placeholder,
     IntArr (col_slice X_data (batch * truncated_backprop_steps)
               (batch * truncated_backprop_steps + truncated_backprop_steps)));
    (y_placeholder,
     IntArr (col_slice y_data (batch * truncated_backprop_steps)
               (batch * truncated_backprop_steps + truncated_backprop_steps)));
    (cell_state, FloatArr (fst st));
    (hidden_state, FloatArr (snd st)) ].

Fixpoint batch_runs (X_data y_data : matrix Z) (batches : list Z)
    (st : lstm_state) (rs : list (F * unit * lstm_state)) : list run_record :=
  match batches, rs with
  | b :: batches', r :: rs' =>
      RunRecord (loss, optimizer, final_state) (batch_feed X_data y_data b st) r
      :: batch_runs X_data y_data batches' (snd r) rs'
  | _, _ => []
  end.

Definition epoch_runs (lg : epoch_log) : list run_record :=
  batch_runs (X_of lg) (y_of lg) (range n_batches) zero_state (answers lg).

Definition graph_objects : list tf :=
  [ X_placeholder; y_placeholder; cell_state; hidden_state; init_state;
    lstm_cell; tf_expand_dims X_placeholder (-1); rnn;
    temp; y_temp;
    tf_random_normal [n_hidden; n_classes]; V;
    tf_random_normal [n_classes]; c;
    tf_matmul temp V; l;
    sparse_softmax_cross_entropy_with_logits y_temp l; loss;
    AdamOptimizer eta; optimizer ].

Definition built (obj : tf) : event := Ev (graph_op obj) (inr tt).

Definition plot_events (training_losses : list F) : list event :=
  [ Ev (plt_figure (10, 8)) (inr tt);
    Ev (plt_plot training_losses) (inr tt);
    Ev (plt_xlabel "Number of training iterations") (inr tt);
    Ev (plt_ylabel "Error") (inr tt) ].

Definition completed_trace (sess : session) (logs : list epoch_log)
  : list event :=
  map built graph_objects
  ++ [ Ev tf_Session (inr sess);
       built tf_global_variables_initializer;
       Ev (sess_run_op sess tf_global_variables_initializer) (inr tt) ]
  ++ epochs_events sess (range n_epochs) logs
  ++ [ Ev (Session_exit sess None) (inr tt) ]
  ++ plot_events (concat (map losses_of_log logs)).

(** The order of stages as a reader of the cells top to bottom would list
    them, with [generateData] first. *)
Definition cell_order : list stage :=
  [ DataGeneration; Placeholders; LstmCell; DynamicUnroll; Reshape; Loss;
    Optimizer; SessionLoop ].

(** Every loss that comes back is printed: as many step lines as runs. *)
Definition every_loss_printed (tr : list event) : Prop :=
  length (filter is_printed (steps_of tr)) = length (filter is_fed (steps_of tr)).

(** *** Environments *)

Definition never_raises W (env : forall X, call X -> W -> (exn + X) * W)
  : Prop :=
  forall X (c : call X) w, exists x w1, env X c w = (inr x, w1).

(** A program that runs to a value from every state of the environment. *)
Definition total W (env : forall X, call X -> W -> (exn + X) * W)
    A (p : prog A) : Prop :=
  forall w, exists a w1 tr, run env p w = (inr a, w1, tr).

(** The draw of an epoch is an answer the environment gave. *)
Definition drawn_by W (env : forall X, call X -> W -> (exn + X) * W)
    (lg : epoch_log) : Prop :=
  exists w w1,
    env _ (np_random_choice n_classes total_series_length) w
    = (inr (drawn lg), w1).

(** [np.random.choice(a, size)] returns [size] samples of [range(a)]. *)
Definition honest_choice W (env : forall X, call X -> W -> (exn + X) * W)
  : Prop :=
  forall a size w draw w1,
    0 < a -> 0 <= size ->
    env _ (np_random_choice a size) w = (inr draw, w1) ->
    Z.of_nat (length draw) = size /\
    Forall (fun v => 0 <= v < a) draw.
(** *** What a program may ask of its environment

    [issues_only P p]: every call [p] can issue, whatever it is answered,
    satisfies [P]. *)
Fixpoint issues_only (P : forall X, call X -> Prop) {A} (p : prog A) : Prop :=
  match p with
  | Ret _ => True
  | Raise _ => True
  | Call c k => P _ c /\ forall x, issues_only P (k x)
  | WithSession sess body k =>
      issues_only P body /\
      (forall pending, P _ (Session_exit sess pending)) /\
      (forall b, issues_only P (k b))
  end.

Definition event_in (P : forall X, call X -> Prop) (ev : event) : Prop :=
  match ev with
  | Ev c _ => P _ c
  | Raised _ => True
  end.

(** The session an event opens, and the session an event leaves. *)
Definition opened_by (ev : event) : option session :=
  match ev with
  | Ev c r =>
      match c in call X return exn + X -> option session with
      | tf_Session =>
          fun r => match r with inr sess => Some sess | inl _ => None end
      | _ => fun _ => None
      end r
  | Raised _ => None
  end.

Definition left_by (ev : event) : option session :=
  match ev with
  | Ev c _ =>
      match c with
      | Session_exit sess _ => Some sess
      | _ => None
      end
  | Raised _ => None
  end.

(** The calls as the cells write them: the generator is asked for
    [total_series_length] samples of [range(n_classes)]; a session run
    fetches loss, optimizer and final state and feeds the four placeholders;
    a printed line is the blank line, an epoch header or a step line of a
    batch whose index is a multiple of 100. *)
Definition as_written X (c : call X) : Prop :=
  match c with
  | np_random_choice a size => a = n_classes /\ size = total_series_length
  | sess_run _ fs fd =>
      fs = (loss, optimizer, final_state) /\
      map fst fd = [X_placeholder; y_placeholder; cell_state; hidden_state]
  | sess_run_op _ op => op = tf_global_variables_initializer
  | print args =>
      args = [PyStr EmptyString] \/
      (exists epoch, 0 <= epoch < n_epochs /\
                     args = [PyStr "Epoch: "; PyInt epoch]) \/
      (exists batch v, 0 <= batch < n_batches /\ batch mod 100 = 0 /\
                       args = [PyStr "Step: "; PyInt batch;
                               PyStr "Loss: "; PyFloat v])
  | graph_op obj => In obj (tf_global_variables_initializer :: graph_objects)
  | _ => True
  end.

(** The calls of the graph-building cells, of the body of the [with]
    statement, of the training cell as a whole, and of the plot cell. *)
Definition graph_call X (c : call X) : Prop :=
  match c with
  | graph_op _ => True
  | _ => False
  end.

Definition loop_call X (c : call X) : Prop :=
  match c with
  | sess_run _ _ _ | np_random_choice _ _ | print _ => True
  | _ => False
  end.

Definition training_call X (c : call X) : Prop :=
  match c with
  | graph_op _ | sess_run_op _ _ | sess_run _ _ _
  | np_random_choice _ _ | print _ => True
  | _ => False
  end.

Definition session_call X (c : call X) : Prop :=
  match c with
  | tf_Session | Session_exit _ _ => True
  | c' => training_call c'
  end.

Definition plot_call X (c : call X) : Prop :=
  match c with
  | plt_figure _ | plt_plot _ | plt_xlabel _ | plt_ylabel _ => True
  | _ => False
  end.

(** The object a graph-building event built. *)
Definition built_by (ev : event) : option tf :=
  match ev with
  | Ev c _ =>
      match c with
      | graph_op obj => Some obj
      | _ => None
      end
  | Raised _ => None
  end.

(** Whether an event is a session run of the training loop, answered or
    not. *)
Definition is_run (ev : event) : bool :=
  match ev with
  | Ev c _ =>
      match c with
      | sess_run _ _ _ => true
      | _ => false
      end
  | Raised _ => false
  end.

(** The part of a trace from its first session run on. *)
Fixpoint from_first_run (tr : list event) : list event :=
  match tr with
  | [] => []
  | ev :: rest => if is_run ev then tr else from_first_run rest
  end.

(** A step line is for a batch whose index is a multiple of 100. *)
Definition step_on_the_hundred (s : step) : Prop :=
  match s with
  | Printed batch _ => 0 <= batch < n_batches /\ batch mod 100 = 0
  | Fed _ => True
  end.

End Program.

(** ** A small environment

    An environment in which nothing raises: floats are integers, the session
    answers each run with its own counter as loss and as state, and the
    random generator is a congruential one. *)
Module Demo.
Fixpoint samples (n : nat) (a seed : Z) : list Z :=
  match n with
  | O => []
  | S k => ((seed / 8) mod a) :: samples k a ((seed * 5 + 3) mod 65536)
  end.

Definition env (X : Type) (c : call Z X) (w : Z) : (exn + X) * Z :=
  match c in call _ X return (exn + X) * Z with
  | graph_op _ _ => (inr tt, w)
  | tf_Session _ => (inr 1, w)
  | Session_exit _ _ _ => (inr tt, w)
  | sess_run_op _ _ _ => (inr tt, w)
  | sess_run _ _ _ =>
      (inr (w, tt, (np_zeros w batch_size n_hidden,
                    np_zeros (w + 1) batch_size n_hidden)), w + 1)
  | np_random_choice _ a size => (inr (samples (Z.to_nat size) a w), w + 1)
  | print _ => (inr tt, w)
  | plt_figure _ _ => (inr tt, w)
  | plt_plot _ => (inr tt, w)
  | plt_xlabel _ _ => (inr tt, w)
  | plt_ylabel _ _ => (inr tt, w)
  end.

(** An environment in which the first session run raises and leaving the
    session raises as well. *)
Definition exit_fails_env (X : Type) (c : call Z X) (w : Z) : (exn + X) * Z :=
  match c in call _ X return (exn + X) * Z with
  | sess_run _ _ _ => (inl "InvalidArgumentError"%string, w)
  | Session_exit _ _ _ => (inl "RuntimeError"%string, w)
  | c' => env c' w
  end.

(** Whether an event raised the exception named [name]. *)
Definition raised_named (name : string) (ev : event Z) : bool :=
  match raised_by ev with
  | Some e => String.eqb e name
  | None => false
  end.

(** A toy library for evaluating the graph: the unrolled LSTM returns ones
    and hands the state back, the cross entropy picks the logit of the
    label, the mean is a sum. *)
Definition dynamic_rnn (num_units : Z) (x c0 h0 : tensor Z)
  : option (tensor Z * (tensor Z * tensor Z)) :=
  Some (Tensor [5; 15; num_units] (repeat 1 (Z.to_nat (75 * num_units))),
        (c0, h0)).
Definition xent (label : Z) (row : list Z) : Z := nth (Z.to_nat label) row 0.
Definition mean (xs : list Z) : Z := fold_right Z.add 0 xs.

Definition ones (shape : list Z) : tensor Z :=
  Tensor shape (repeat 1 (Z.to_nat (size_of shape))).

Definition fed_values : bindings Z :=
  Bindings
    (fun id =>
       match id with
       | 0%nat | 1%nat => Some (IntT Z (ones [5; 15]))
       | 2%nat | 3%nat => Some (FloatT (ones [5; 20]))
       | _ => None
       end)
    (fun id =>
       match id with
       | 0%nat => Some (ones [20; 2])
       | 1%nat => Some (ones [2])
       | _ => None
       end).
End Demo.

(** * Properties *)

(** ** Array lemmas *)

Section ArrayFacts.
Context {A : Type}.

Lemma chunks_length (w r : nat) (a : list A) :
  length (chunks w r a) = r.
Proof. revert a; induction r; simpl; intros; [reflexivity | now rewrite IHr]. Qed.

Lemma chunks_ravel (w r : nat) (a : list A) :
  length a = (r * w)%nat -> ravel (chunks w r a) = a.
Proof.
  unfold ravel. revert a; induction r; simpl; intros a Hlen.
  - now destruct a.
  - rewrite IHr.
    + apply firstn_skipn.
    + rewrite length_skipn. lia.
Qed.

Lemma chunks_width (w r : nat) (a : list A) :
  length a = (r * w)%nat -> Forall (fun row => length row = w) (chunks w r a).
Proof.
  revert a; induction r; simpl; intros a Hlen; constructor.
  - rewrite length_firstn. lia.
  - apply IHr. rewrite length_skipn. lia.
Qed.

Lemma np_roll_length (a : list A) (s : Z) : length (np_roll a s) = length a.
Proof.
  unfold np_roll. destruct (_ =? 0); [reflexivity|].
  rewrite length_app, length_skipn, length_firstn. lia.
Qed.

Lemma slice_fill_length (a : list A) (lo hi : Z) (v : A) :
  length (slice_fill a lo hi v) = length a.
Proof.
  unfold slice_fill, slice_bound.
  rewrite !length_app, length_firstn, repeat_length, length_skipn.
  destruct (Z.ltb_spec lo 0), (Z.ltb_spec hi 0); lia.
Qed.

Lemma slice_length (a : list A) (lo hi : Z) :
  0 <= lo <= hi -> hi <= Z.of_nat (length a) ->
  Z.of_nat (length (slice a lo hi)) = hi - lo.
Proof.
  intros H1 H2. unfold slice, slice_bound.
  rewrite length_firstn, length_skipn.
  destruct (Z.ltb_spec lo 0), (Z.ltb_spec hi 0); lia.
Qed.
End ArrayFacts.

Section ReshapeFacts.
Context {A : Type}.

Lemma np_reshape_rows_ok (a : list A) (rows cols : Z) :
  0 < rows -> 0 <= cols -> Z.of_nat (length a) = rows * cols ->
  exists m, np_reshape_rows a rows = inr m /\
            shape2 m rows cols /\ ravel m = a.
Proof.
  intros Hr Hc Hlen. unfold np_reshape_rows.
  rewrite Hlen, (Z.mul_comm rows cols), Z.mod_mul, Z.div_mul by lia.
  replace (0 <? rows) with true by (symmetry; apply Z.ltb_lt; exact Hr).
  simpl andb. cbv iota.
  eexists; split; [reflexivity|].
  assert (Hn : length a = (Z.to_nat rows * Z.to_nat cols)%nat) by nia.
  split; [split|].
  - rewrite chunks_length. lia.
  - eapply Forall_impl; [|apply chunks_width; exact Hn].
    intros r Hw. simpl in Hw. lia.
  - apply chunks_ravel; exact Hn.
Qed.

Lemma np_roll_item (a : list A) (shift : Z) (d : A) (i : nat) :
  0 <= shift < Z.of_nat (length a) ->
  (Z.to_nat shift <= i < length a)%nat ->
  nth i (np_roll a shift) d = nth (i - Z.to_nat shift) a d.
Proof.
  intros Hs Hi. unfold np_roll.
  destruct (Z.eqb_spec (Z.of_nat (length a)) 0) as [E|_]; [lia|].
  rewrite Z.mod_small by exact Hs.
  rewrite app_nth2; rewrite length_skipn.
  - replace (length a - (length a - Z.to_nat shift))%nat
      with (Z.to_nat shift) by lia.
    rewrite nth_firstn.
    destruct (Nat.ltb_spec (i - Z.to_nat shift) (length a - Z.to_nat shift));
      [reflexivity | lia].
  - lia.
Qed.

Lemma slice_bound_in (n i : Z) :
  0 <= i <= n -> slice_bound n i = Z.to_nat i.
Proof.
  intros H. unfold slice_bound.
  destruct (Z.ltb_spec i 0); lia.
Qed.

Lemma slice_fill_item_in (a : list A) (hi : Z) (v d : A) (i : nat) :
  0 <= hi <= Z.of_nat (length a) -> (i < Z.to_nat hi)%nat ->
  nth i (slice_fill a 0 hi v) d = v.
Proof.
  intros Hh Hi. unfold slice_fill.
  rewrite !slice_bound_in by lia.
  change (Z.to_nat 0) with 0%nat.
  rewrite firstn_0, Nat.sub_0_r, app_nil_l, app_nth1.
  - apply nth_repeat_lt. lia.
  - rewrite repeat_length. lia.
Qed.

Lemma slice_fill_item_out (a : list A) (hi : Z) (v d : A) (i : nat) :
  0 <= hi <= Z.of_nat (length a) -> (Z.to_nat hi <= i)%nat ->
  nth i (slice_fill a 0 hi v) d = nth i a d.
Proof.
  intros Hh Hi. unfold slice_fill.
  rewrite !slice_bound_in by lia.
  change (Z.to_nat 0) with 0%nat.
  rewrite firstn_0, Nat.sub_0_r, app_nil_l, Nat.max_0_l.
  rewrite app_nth2; rewrite repeat_length; [|lia].
  rewrite nth_skipn. f_equal. lia.
Qed.
End ReshapeFacts.

Section ForallFacts.
Context {A : Type} (P : A -> Prop).

Lemma Forall_firstn_skipn (n : nat) (l : list A) :
  Forall P l -> Forall P (firstn n l) /\ Forall P (skipn n l).
Proof.
  intros H. apply Forall_app. now rewrite firstn_skipn.
Qed.

Lemma Forall_repeat (v : A) (n : nat) : P v -> Forall P (repeat v n).
Proof. intros Hv. induction n; simpl; constructor; assumption. Qed.

Lemma Forall_np_roll (a : list A) (s : Z) :
  Forall P a -> Forall P (np_roll a s).
Proof.
  intros H. unfold np_roll. destruct (_ =? 0); [exact H|].
  apply Forall_app. split; now apply Forall_firstn_skipn.
Qed.

Lemma Forall_slice_fill (a : list A) (lo hi : Z) (v : A) :
  P v -> Forall P a -> Forall P (slice_fill a lo hi v).
Proof.
  intros Hv H. unfold slice_fill.
  repeat (apply Forall_app; split).
  - now apply Forall_firstn_skipn.
  - now apply Forall_repeat.
  - now apply Forall_firstn_skipn.
Qed.

Lemma Forall_slice (a : list A) (lo hi : Z) :
  Forall P a -> Forall P (slice a lo hi).
Proof.
  intros H. unfold slice.
  apply Forall_firstn_skipn. now apply Forall_firstn_skipn.
Qed.

Lemma Forall_col_slice (m : matrix A) (lo hi : Z) :
  Forall (Forall P) m -> Forall (Forall P) (col_slice m lo hi).
Proof.
  intros H. unfold col_slice. apply Forall_map.
  eapply Forall_impl; [|exact H]. intros r Hr. now apply Forall_slice.
Qed.
End ForallFacts.

(** What [generateData] returns for a draw of the requested length: two
    5 x 10000 arrays, [x] holding the draw and [y] the rolled copy with its
    first [echo_step] entries cleared. *)
Lemma generateData_from_ravel (draw : list Z) :
  Z.of_nat (length draw) = total_series_length ->
  exists x y,
    generateData_from draw = inr (x, y) /\
    shape2 x batch_size (total_series_length / batch_size) /\
    shape2 y batch_size (total_series_length / batch_size) /\
    ravel x = draw /\
    ravel y = slice_fill (np_roll draw echo_step) 0 echo_step 0.
Proof.
  intros Hlen. unfold generateData_from, np_array.
  set (y := slice_fill (np_roll draw echo_step) 0 echo_step 0).
  assert (Hy : Z.of_nat (length y) = total_series_length).
  { unfold y. now rewrite slice_fill_length, np_roll_length. }
  change (total_series_length / batch_size) with 10000.
  destruct (@np_reshape_rows_ok Z draw batch_size 10000)
    as (mx & Ex & Sx & Rx); [reflexivity | lia | rewrite Hlen; reflexivity |].
  destruct (@np_reshape_rows_ok Z y batch_size 10000)
    as (my & Ey & Sy & Ry); [reflexivity | lia | rewrite Hy; reflexivity |].
  rewrite Ex, Ey. exists mx, my. repeat split; try apply Sx; try apply Sy; assumption.
Qed.

Lemma echo_item (draw : list Z) (i : Z) :
  Z.of_nat (length draw) = total_series_length ->
  echo_step <= i < total_series_length ->
  item (slice_fill (np_roll draw echo_step) 0 echo_step 0) i =
  item draw (i - echo_step).
Proof.
  intros Hlen Hi. unfold item.
  unfold total_series_length, echo_step in *.
  rewrite slice_fill_item_out by (rewrite ?np_roll_length; lia).
  rewrite np_roll_item by lia.
  f_equal. lia.
Qed.

Lemma echo_item_head (draw : list Z) (i : Z) :
  Z.of_nat (length draw) = total_series_length ->
  0 <= i < echo_step ->
  item (slice_fill (np_roll draw echo_step) 0 echo_step 0) i = 0.
Proof.
  intros Hlen Hi. unfold item.
  unfold total_series_length, echo_step in *.
  apply slice_fill_item_in; rewrite ?np_roll_length; lia.
Qed.

(** ** Column slices taken by the training loop *)

Section SliceFacts.
Context {A : Type}.

Lemma col_slice_shape (m : matrix A) (rows cols lo hi : Z) :
  shape2 m rows cols -> 0 <= lo <= hi -> hi <= cols ->
  shape2 (col_slice m lo hi) rows (hi - lo).
Proof.
  intros [Hr Hc] H1 H2. split.
  - unfold col_slice. now rewrite length_map.
  - unfold col_slice. apply Forall_map.
    eapply Forall_impl; [|exact Hc].
    intros r Hlen. simpl in Hlen. apply slice_length; lia.
Qed.

Lemma slice_nth (a : list A) (lo hi : Z) (d : A) (j : nat) :
  0 <= lo <= hi -> hi <= Z.of_nat (length a) ->
  (j < Z.to_nat (hi - lo))%nat ->
  nth j (slice a lo hi) d = nth (Z.to_nat lo + j) a d.
Proof.
  intros H1 H2 Hj. unfold slice.
  rewrite !slice_bound_in by lia.
  rewrite nth_firstn.
  destruct (Nat.ltb_spec j (Z.to_nat hi - Z.to_nat lo)); [|lia].
  apply nth_skipn.
Qed.
End SliceFacts.

(** ** Running programs *)

Section RunFacts.
Variable F : Type.
Variable W : Type.
Variable env : forall X, call F X -> W -> (exn + X) * W.

Lemma run_bind A B (p : prog F A) (f : A -> prog F B) (w : W) :
  run env (bind p f) w =
  match run env p w with
  | (inl e, w1, t1) => (inl e, w1, t1)
  | (inr a, w1, t1) =>
      let '(r, w2, t2) := run env (f a) w1 in (r, w2, t1 ++ t2)
  end.
Proof.
  revert B f w. induction p as [A a | A e | A X c0 k IH | A B0 sess body IHb k IHk];
    intros B f w; simpl.
  - destruct (run env (f a) w) as [[r w2] t2]. reflexivity.
  - reflexivity.
  - destruct (env c0 w) as [[e | x] w1]; [reflexivity|].
    rewrite IH. destruct (run env (k x) w1) as [[[e | a] w2] t1]; [reflexivity|].
    destruct (run env (f a) w2) as [[r w3] t2]. reflexivity.
  - destruct (run env body w) as [[rb w1] t1].
    destruct (env _ w1) as [[e2 | u] w2]; [reflexivity|].
    destruct rb as [e | b]; [reflexivity|].
    rewrite IHk. destruct (run env (k b) w2) as [[[e | a] w3] t3]; [reflexivity|].
    destruct (run env (f a) w3) as [[r w4] t4].
    rewrite <- app_assoc. reflexivity.
Qed.

Lemma run_bind_completed A B (p : prog F A) (f : A -> prog F B) w b w2 tr :
  run env (bind p f) w = (inr b, w2, tr) ->
  exists a w1 t1 t2,
    run env p w = (inr a, w1, t1) /\
    run env (f a) w1 = (inr b, w2, t2) /\
    tr = t1 ++ t2.
Proof.
  rewrite run_bind.
  destruct (run env p w) as [[[e | a] w1] t1]; [discriminate|].
  destruct (run env (f a) w1) as [[r w3] t2] eqn:E.
  intros H. inversion H; subst.
  exists a, w1, t1, t2. auto.
Qed.

Lemma run_Call A X (c0 : call F X) (k : X -> prog F A) (w : W) :
  run env (Call c0 k) w =
  match env c0 w with
  | (inl e, w1) => (inl e, w1, [Ev c0 (inl e)])
  | (inr x, w1) =>
      let '(r, w2, t) := run env (k x) w1 in (r, w2, Ev c0 (inr x) :: t)
  end.
Proof. reflexivity. Qed.

Lemma run_WithSession A B sess (body : prog F B) (k : B -> prog F A) (w : W) :
  run env (WithSession sess body k) w =
  let '(rb, w1, t1) := run env body w in
  let pending := match rb with inl e => Some e | inr _ => None end in
  let leave := Session_exit F sess pending in
  match env leave w1 with
  | (inl e2, w2) => (inl e2, w2, t1 ++ [Ev leave (inl e2)])
  | (inr u, w2) =>
      match rb with
      | inl e => (inl e, w2, t1 ++ [Ev leave (inr u)])
      | inr b =>
          let '(r, w3, t3) := run env (k b) w2 in
          (r, w3, t1 ++ Ev leave (inr u) :: t3)
      end
  end.
Proof. reflexivity. Qed.

Lemma run_call_completed X (c0 : call F X) w x w1 tr :
  run env (call_ c0) w = (inr x, w1, tr) ->
  env c0 w = (inr x, w1) /\ tr = [Ev c0 (inr x)].
Proof.
  unfold call_. simpl. destruct (env c0 w) as [[e | x0] w0]; [discriminate|].
  intros H. inversion H; subst. auto.
Qed.

Lemma run_build_completed (obj : tf) w o w1 tr :
  run env (build F obj) w = (inr o, w1, tr) ->
  o = obj /\ tr = [built F obj].
Proof.
  unfold build, built. simpl. destruct (env _ w) as [[e | []] w0]; [discriminate|].
  intros H. inversion H; subst. auto.
Qed.

(** *** Exceptions *)

Lemma last_raised_app (t1 t2 : list (event F)) :
  last_raised (t1 ++ t2) =
  match last_raised t2 with
  | Some e => Some e
  | None => last_raised t1
  end.
Proof.
  induction t1 as [|ev t1 IH]; simpl.
  - destruct (last_raised t2); reflexivity.
  - rewrite IH. destruct (last_raised t2); reflexivity.
Qed.

Lemma stops_at_raise_clean (t1 t2 : list (event F)) :
  last_raised t1 = None ->
  stops_at_raise (t1 ++ t2) = stops_at_raise t2.
Proof.
  induction t1 as [|ev t1 IH]; simpl; [reflexivity|].
  destruct (last_raised t1); [discriminate|].
  intros Hev. rewrite Hev. auto.
Qed.

Lemma stops_at_raise_leave (t1 t2 : list (event F)) (e : exn) :
  last_raised t1 = Some e ->
  stops_at_raise t1 = true ->
  forallb (@leaves_session F) t2 = true ->
  stops_at_raise (t1 ++ t2) = true.
Proof.
  induction t1 as [|ev t1 IH]; simpl; [discriminate|].
  intros Hl Hs H2.
  destruct (raised_by ev) eqn:Hev.
  - rewrite forallb_app, Hs, H2. reflexivity.
  - destruct (last_raised t1) eqn:Hl1; [|congruence].
    apply IH; auto.
Qed.

(** The outcome of a run is the last exception its trace shows, or a value
    when the trace shows none. *)
Lemma run_last_raised A (p : prog F A) (w : W) :
  match outcome env p w with
  | inl e => last_raised (trace env p w) = Some e
  | inr _ => last_raised (trace env p w) = None
  end.
Proof.
  unfold outcome, trace. revert w.
  induction p as [A a | A e | A X c0 k IH | A B0 sess body IHb k IHk];
    intros w; simpl.
  - reflexivity.
  - reflexivity.
  - destruct (env c0 w) as [[e | x] w1]; [reflexivity|].
    specialize (IH x w1). destruct (run env (k x) w1) as [[r w2] t].
    simpl in *. destruct r; rewrite IH; reflexivity.
  - specialize (IHb w). destruct (run env body w) as [[rb w1] t1]. simpl in IHb.
    destruct (env _ w1) as [[e2 | u] w2]; simpl.
    + rewrite last_raised_app. reflexivity.
    + destruct rb as [e | b]; simpl.
      * rewrite last_raised_app. simpl. exact IHb.
      * specialize (IHk b w2). destruct (run env (k b) w2) as [[r w3] t3].
        simpl in *. rewrite last_raised_app. simpl.
        destruct r; rewrite IHk; [reflexivity | exact IHb].
Qed.

Lemma run_stops_at_raise A (p : prog F A) (w : W) :
  stops_at_raise (trace env p w) = true.
Proof.
  unfold trace. revert w.
  induction p as [A a | A e | A X c0 k IH | A B0 sess body IHb k IHk];
    intros w; simpl.
  - reflexivity.
  - reflexivity.
  - destruct (env c0 w) as [[e | x] w1]; [reflexivity|].
    specialize (IH x w1). destruct (run env (k x) w1) as [[r w2] t].
    simpl in *. exact IH.
  - pose proof (run_last_raised body w) as Hl. unfold outcome, trace in Hl.
    specialize (IHb w). destruct (run env body w) as [[rb w1] t1].
    simpl in IHb, Hl.
    destruct (env _ w1) as [[e2 | u] w2]; simpl.
    + destruct rb as [e | b].
      * eapply stops_at_raise_leave; eauto.
      * rewrite stops_at_raise_clean by exact Hl. reflexivity.
    + destruct rb as [e | b]; simpl.
      * eapply stops_at_raise_leave; eauto.
      * specialize (IHk b w2). destruct (run env (k b) w2) as [[r w3] t3].
        simpl in *. rewrite stops_at_raise_clean by exact Hl. simpl. exact IHk.
Qed.
End RunFacts.

(** ** Runs of the notebook that complete *)

Section CompletedRuns.
Variable F : Type.
Variable f0 : F.
Variable W : Type.
Variable env : forall X, call F X -> W -> (exn + X) * W.

Lemma run_ret_completed A (a b : A) (w w1 : W) (tr : list (event F)) :
  run env (Ret F a) w = (inr b, w1, tr) -> b = a /\ w1 = w /\ tr = [].
Proof. simpl. intros H. inversion H; auto. Qed.

Lemma for_each_cons S (i : Z) (rest : list Z) (body : Z -> S -> prog F S) (s : S) :
  for_each (i :: rest) body s = bind (body i s) (for_each rest body).
Proof. reflexivity. Qed.

Lemma run_batch_completed sess X_data y_data batch tl cs hs w vars w1 tr :
  run env (batch_body sess X_data y_data batch (tl, cs, hs)) w
    = (inr vars, w1, tr) ->
  exists r,
    tr = batch_events sess X_data y_data batch (cs, hs) r /\
    vars = (tl ++ [fst (fst r)], fst (snd r), snd (snd r)).
Proof.
  unfold batch_body. intros H.
  apply run_bind_completed in H as (r & w2 & t1 & t2 & Hc & Hk & ->).
  apply run_call_completed in Hc as [_ ->].
  destruct r as [[v u] [c' h']].
  apply run_bind_completed in Hk as (u1 & w3 & t3 & t4 & Hp & Hr & ->).
  apply run_ret_completed in Hr as (-> & _ & ->).
  exists (v, u, (c', h')). split; [|reflexivity].
  unfold batch_events. simpl fst. simpl snd.
  destruct (batch mod 100 =? 0).
  - apply run_call_completed in Hp as [_ ->]. destruct u1. reflexivity.
  - apply run_ret_completed in Hp as (_ & _ & ->). reflexivity.
Qed.

Lemma run_batches_completed sess X_data y_data batches :
  forall tl cs hs w vars w1 tr,
  run env (for_each batches (batch_body sess X_data y_data) (tl, cs, hs)) w
    = (inr vars, w1, tr) ->
  exists rs,
    length rs = length batches /\
    tr = batches_events sess X_data y_data batches (cs, hs) rs /\
    fst (fst vars) = tl ++ map (fun r => fst (fst r)) rs.
Proof.
  induction batches as [|b bs IH]; intros tl cs hs w vars w1 tr H.
  - apply run_ret_completed in H as (-> & _ & ->).
    exists []. simpl. rewrite app_nil_r. auto.
  - rewrite for_each_cons in H.
    apply run_bind_completed in H as (v1 & w2 & t1 & t2 & Hb & Hrest & ->).
    apply run_batch_completed in Hb as (r & -> & ->).
    apply IH in Hrest as (rs & Hlen & -> & Hl).
    exists (r :: rs). simpl. repeat split.
    + now rewrite Hlen.
    + destruct r as [[v u] [c' h']]. reflexivity.
    + rewrite Hl, <- app_assoc. reflexivity.
Qed.

Lemma run_generateData_completed w data w1 tr :
  run env (generateData F) w = (inr data, w1, tr) ->
  exists draw,
    env (np_random_choice F n_classes total_series_length) w = (inr draw, w1) /\
    generateData_from draw = inr data /\
    tr = [Ev (np_random_choice F n_classes total_series_length) (inr draw)].
Proof.
  unfold generateData. intros H.
  apply run_bind_completed in H as (draw & w2 & t1 & t2 & Hc & Hl & ->).
  apply run_call_completed in Hc as [Hc ->].
  exists draw. destruct (generateData_from draw) as [e | d]; simpl in Hl.
  - discriminate.
  - inversion Hl; subst. auto.
Qed.

Lemma run_epoch_completed sess epoch tl w tl' w1 tr :
  run env (epoch_body f0 sess epoch tl) w = (inr tl', w1, tr) ->
  exists lg,
    log_ok lg /\
    drawn_by env lg /\
    tr = epoch_events f0 sess epoch lg /\
    tl' = tl ++ losses_of_log lg.
Proof.
  unfold epoch_body. intros H.
  apply run_bind_completed in H as (u1 & w2 & t1 & t2 & H1 & H & ->).
  apply run_call_completed in H1 as [_ ->]. destruct u1.
  apply run_bind_completed in H as (u2 & w3 & t3 & t4 & H2 & H & ->).
  apply run_call_completed in H2 as [_ ->]. destruct u2.
  apply run_bind_completed in H as (data & w4 & t5 & t6 & Hg & H & ->).
  apply run_generateData_completed in Hg as (draw & Henv & Hd & ->).
  destruct data as [X_data y_data].
  apply run_bind_completed in H as (vars & w5 & t7 & t8 & Hb & Hr & ->).
  apply run_batches_completed in Hb as (rs & Hlen & -> & Hl).
  destruct vars as [[tl2 c2] h2]. simpl in Hl. subst tl2.
  apply run_ret_completed in Hr as (-> & _ & ->).
  exists (EpochLog draw X_data y_data rs). repeat split; auto.
  { eexists _, _. exact Henv. }
  unfold epoch_events. cbn [drawn X_of y_of answers app].
  rewrite app_nil_r. reflexivity.
Qed.

Lemma run_epochs_completed sess epochs :
  forall tl w tl' w1 tr,
  run env (for_each epochs (epoch_body f0 sess) tl) w = (inr tl', w1, tr) ->
  exists logs,
    length logs = length epochs /\
    Forall (@log_ok F) logs /\
    Forall (drawn_by env) logs /\
    tr = epochs_events f0 sess epochs logs /\
    tl' = tl ++ concat (map (@losses_of_log F) logs).
Proof.
  induction epochs as [|e es IH]; intros tl w tl' w1 tr H.
  - apply run_ret_completed in H as (-> & _ & ->).
    exists []. simpl. rewrite app_nil_r. auto.
  - rewrite for_each_cons in H.
    apply run_bind_completed in H as (tl1 & w2 & t1 & t2 & He & Hrest & ->).
    apply run_epoch_completed in He as (lg & Hok & Hd & -> & ->).
    apply IH in Hrest as (logs & Hlen & Hoks & Hds & -> & ->).
    exists (lg :: logs). cbn [length epochs_events map concat].
    repeat split; auto.
    now rewrite <- app_assoc.
Qed.
Ltac bind_completed H Hfirst :=
  apply run_bind_completed in H;
  destruct H as (? & ? & ? & ? & Hfirst & H & ?); subst.

Ltac build_completed H :=
  let Hb := fresh "Hb" in
  bind_completed H Hb;
  apply run_build_completed in Hb; destruct Hb as [? ?]; subst.

Ltac ret_completed H :=
  apply run_ret_completed in H; destruct H as (? & ? & ?); subst.

Lemma run_session_body_completed sess w tl w1 tr :
  run env (session_body f0 sess) w = (inr tl, w1, tr) ->
  exists logs,
    length logs = length (range n_epochs) /\
    Forall (@log_ok F) logs /\
    Forall (drawn_by env) logs /\
    tr = [ built F tf_global_variables_initializer;
           Ev (sess_run_op F sess tf_global_variables_initializer) (inr tt) ]
         ++ epochs_events f0 sess (range n_epochs) logs /\
    tl = concat (map (@losses_of_log F) logs).
Proof.
  unfold session_body. intros H.
  build_completed H.
  bind_completed H Hc. apply run_call_completed in Hc as [_ ->].
  apply run_epochs_completed in H as (logs & Hlen & Hok & Hd & -> & ->).
  exists logs. repeat split; auto.
  match goal with u : unit |- _ => destruct u end. reflexivity.
Qed.

Lemma run_cell_training_completed w tl w1 tr :
  run env (cell_training f0) w = (inr tl, w1, tr) ->
  exists sess logs,
    length logs = length (range n_epochs) /\
    Forall (@log_ok F) logs /\
    Forall (drawn_by env) logs /\
    tr = [ Ev (tf_Session F) (inr sess);
           built F tf_global_variables_initializer;
           Ev (sess_run_op F sess tf_global_variables_initializer) (inr tt) ]
         ++ epochs_events f0 sess (range n_epochs) logs
         ++ [ Ev (Session_exit F sess None) (inr tt) ] /\
    tl = concat (map (@losses_of_log F) logs).
Proof.
  unfold cell_training. rewrite run_Call.
  destruct (env (tf_Session F) w) as [[e | sess] w2]; [discriminate|].
  rewrite run_WithSession.
  destruct (run env (session_body f0 sess) w2) as [[rb w3] t1] eqn:Hb.
  destruct rb as [e | tl0]; cbv zeta.
  { destruct (env (Session_exit F sess (Some e)) w3) as [[e2 | u] w4];
      discriminate. }
  destruct (env (Session_exit F sess None) w3) as [[e2 | u] w4];
    [discriminate|].
  cbn [run]. intros H. inversion H; subst.
  apply run_session_body_completed in Hb as (logs & Hlen & Hok & Hd & -> & ->).
  exists sess, logs. repeat split; auto.
  destruct u. rewrite <- app_assoc. reflexivity.
Qed.

Lemma run_cell_plot_completed tl w u w1 tr :
  run env (cell_plot tl) w = (inr u, w1, tr) -> tr = plot_events tl.
Proof.
  unfold cell_plot. intros H.
  repeat (let Hc := fresh "Hc" in
          bind_completed H Hc;
          apply run_call_completed in Hc; destruct Hc as [_ ?]; subst;
          match goal with v : unit |- _ => destruct v end).
  ret_completed H. reflexivity.
Qed.

Lemma run_graph_completed w u w1 tr (rest : prog F unit) :
  run env
    (bind (cell_placeholders F) (fun _ =>
     bind (cell_forward F) (fun _ =>
     bind (cell_reshape F) (fun _ =>
     bind (cell_logits F) (fun _ =>
     bind (cell_loss F) (fun _ => rest)))))) w = (inr u, w1, tr) ->
  exists w2 t,
    run env rest w2 = (inr u, w1, t) /\
    tr = map (built F) graph_objects ++ t.
Proof.
  intros H.
  bind_completed H H1. unfold cell_placeholders in H1.
  do 5 build_completed H1. ret_completed H1.
  bind_completed H H2. unfold cell_forward in H2.
  do 3 build_completed H2. ret_completed H2.
  bind_completed H H3. unfold cell_reshape in H3.
  do 2 build_completed H3. ret_completed H3.
  bind_completed H H4. unfold cell_logits in H4.
  do 6 build_completed H4. ret_completed H4.
  bind_completed H H5. unfold cell_loss in H5.
  do 4 build_completed H5. ret_completed H5.
  eexists _, _. split; [exact H|]. reflexivity.
Qed.

(** A run of the notebook that completes leaves exactly the trace rebuilt
    from the answers it was given. *)
Lemma run_notebook_completed w u w1 tr :
  run env (notebook f0) w = (inr u, w1, tr) ->
  exists sess logs,
    length logs = length (range n_epochs) /\
    Forall (@log_ok F) logs /\
    Forall (drawn_by env) logs /\
    tr = completed_trace f0 sess logs.
Proof.
  unfold notebook. intros H.
  apply run_graph_completed in H as (w2 & t & H & ->).
  bind_completed H Ht.
  apply run_cell_training_completed in Ht
    as (sess & logs & Hlen & Hok & Hd & -> & ->).
  apply run_cell_plot_completed in H as ->.
  exists sess, logs. repeat split; auto.
  unfold completed_trace. rewrite <- !app_assoc. reflexivity.
Qed.

Lemma completes_run (w : W) :
  completes env (notebook f0) w = true ->
  exists w1 tr, run env (notebook f0) w = (inr tt, w1, tr) /\
                trace env (notebook f0) w = tr.
Proof.
  unfold completes, outcome, trace.
  destruct (run env (notebook f0) w) as [[[e | []] w1] tr]; simpl;
    [discriminate|].
  intros _. eauto.
Qed.

Lemma completed_notebook_trace (w : W) :
  completes env (notebook f0) w = true ->
  exists sess logs,
    length logs = length (range n_epochs) /\
    Forall (@log_ok F) logs /\
    Forall (drawn_by env) logs /\
    trace env (notebook f0) w = completed_trace f0 sess logs.
Proof.
  intros H. apply completes_run in H as (w1 & tr & Hr & ->).
  eapply run_notebook_completed; eauto.
Qed.
End CompletedRuns.

(** ** Environments in which the notebook completes *)

Section Totality.
Variable F : Type.
Variable f0 : F.
Variable W : Type.
Variable env : forall X, call F X -> W -> (exn + X) * W.
Hypothesis env_never_raises : never_raises env.
Hypothesis env_honest_choice : honest_choice env.

Local Abbreviation total := (total env).

Lemma total_Ret A (a : A) : total (Ret F a).
Proof. intros w. simpl. eauto. Qed.

Lemma total_call X (c0 : call F X) : total (call_ c0).
Proof.
  intros w. unfold call_. rewrite run_Call.
  destruct (env_never_raises c0 w) as (x & w1 & ->). simpl. eauto.
Qed.

Lemma total_bind A B (p : prog F A) (f : A -> prog F B) :
  total p -> (forall a, total (f a)) -> total (bind p f).
Proof.
  intros Hp Hf w. rewrite run_bind.
  destruct (Hp w) as (a & w1 & t1 & ->).
  destruct (Hf a w1) as (b & w2 & t2 & ->). eauto.
Qed.

Lemma total_build (obj : tf) : total (build F obj).
Proof.
  intros w. unfold build. rewrite run_Call.
  destruct (env_never_raises (graph_op F obj) w) as (x & w1 & ->). simpl. eauto.
Qed.

Lemma total_for_each S (items : list Z) (body : Z -> S -> prog F S) :
  (forall i s, total (body i s)) -> forall s, total (for_each items body s).
Proof.
  intros Hb. induction items as [|i rest IH]; intros s.
  - apply total_Ret.
  - rewrite for_each_cons. apply total_bind; auto.
Qed.

Lemma total_WithSession A B sess (body : prog F B) (k : B -> prog F A) :
  total body -> (forall b, total (k b)) -> total (WithSession sess body k).
Proof.
  intros Hb Hk w. rewrite run_WithSession.
  destruct (Hb w) as (b & w1 & t1 & ->). cbv beta iota zeta.
  destruct (env_never_raises (Session_exit F sess None) w1) as (u & w2 & ->).
  destruct (Hk b w2) as (a & w3 & t3 & ->). eauto.
Qed.

Lemma total_generateData : total (generateData F).
Proof.
  intros w. unfold generateData. rewrite run_bind.
  unfold call_ at 1. rewrite run_Call.
  destruct (env_never_raises (np_random_choice F n_classes total_series_length) w)
    as (draw & w1 & E).
  rewrite E.
  assert (Hlen : Z.of_nat (length draw) = total_series_length).
  { eapply env_honest_choice; [| | exact E]; [reflexivity | discriminate]. }
  destruct (generateData_from_ravel draw Hlen) as (x & y & Ed & _).
  cbn [run]. rewrite Ed. cbn [lift run]. eauto.
Qed.

Lemma total_batch_body sess X_data y_data batch vars :
  total (batch_body sess X_data y_data batch vars).
Proof.
  destruct vars as [[tl cs] hs]. unfold batch_body.
  apply total_bind; [apply total_call|].
  intros [[v u] [c' h']]. apply total_bind; [|intros; apply total_Ret].
  destruct (batch mod 100 =? 0); [apply total_call | apply total_Ret].
Qed.

Lemma total_epoch_body sess epoch tl : total (epoch_body f0 sess epoch tl).
Proof.
  unfold epoch_body.
  apply total_bind; [apply total_call|]. intros _.
  apply total_bind; [apply total_call|]. intros _.
  apply total_bind; [apply total_generateData|]. intros [X_data y_data].
  apply total_bind; [apply total_for_each; intros; apply total_batch_body|].
  intros [[tl' cs'] hs']. apply total_Ret.
Qed.

Ltac total_builds :=
  repeat (apply total_bind; [apply total_build | intros ?]); apply total_Ret.

Lemma total_cell_training : total (cell_training f0).
Proof.
  unfold cell_training. intros w. rewrite run_Call.
  destruct (env_never_raises (tf_Session F) w) as (sess & w1 & ->).
  destruct (@total_WithSession _ _ sess (session_body f0 sess)
              (fun tl => Ret F tl)) with (w := w1) as (a & w2 & t & ->).
  - unfold session_body.
    apply total_bind; [apply total_build | intros ?].
    apply total_bind; [apply total_call | intros ?].
    apply total_for_each. intros; apply total_epoch_body.
  - intros; apply total_Ret.
  - eauto.
Qed.

Lemma total_cell_plot tl : total (cell_plot tl).
Proof.
  unfold cell_plot.
  repeat (apply total_bind; [apply total_call | intros ?]). apply total_Ret.
Qed.

Lemma total_notebook : total (notebook f0).
Proof.
  unfold notebook.
  apply total_bind; [unfold cell_placeholders; total_builds | intros _].
  apply total_bind; [unfold cell_forward; total_builds | intros _].
  apply total_bind; [unfold cell_reshape; total_builds | intros _].
  apply total_bind; [unfold cell_logits; total_builds | intros _].
  apply total_bind; [unfold cell_loss; total_builds | intros _].
  apply total_bind; [apply total_cell_training | intros tl].
  apply total_cell_plot.
Qed.

Lemma well_behaved_completes (w : W) : completes env (notebook f0) w = true.
Proof.
  unfold completes, outcome.
  destruct (total_notebook w) as (a & w1 & tr & ->). reflexivity.
Qed.
End Totality.

(** ** What a completed trace shows *)

Section Views.
Variable F : Type.
Variable f0 : F.

Lemma keep_app A B (f : A -> option B) (xs ys : list A) :
  keep f (xs ++ ys) = keep f xs ++ keep f ys.
Proof. unfold keep. apply flat_map_app. Qed.

Lemma length_concat_uniform A (k : nat) (ls : list (list A)) :
  Forall (fun l0 => length l0 = k) ls ->
  length (concat ls) = (length ls * k)%nat.
Proof.
  induction 1 as [|x xs Hx _ IH]; [reflexivity|].
  cbn [concat length]. rewrite length_app, IH, Hx. lia.
Qed.

Lemma range_length (n : Z) : length (range n) = Z.to_nat n.
Proof. unfold range. now rewrite length_map, length_seq. Qed.

Lemma In_range (n i : Z) : In i (range n) <-> 0 <= i < n.
Proof.
  unfold range. rewrite in_map_iff. split.
  - intros (k & <- & Hk). apply in_seq in Hk. lia.
  - intros Hi. exists (Z.to_nat i). split; [lia|]. apply in_seq. lia.
Qed.

(** *** Session runs *)

Lemma runs_of_batches sess X_data y_data batches :
  forall (st : lstm_state F) rs,
  runs_of (batches_events sess X_data y_data batches st rs)
  = batch_runs X_data y_data batches st rs.
Proof.
  induction batches as [|b bs IH]; intros st [|r rs]; try reflexivity.
  cbn [batches_events batch_runs]. unfold runs_of in *.
  rewrite keep_app, IH. unfold batch_events.
  destruct (b mod 100 =? 0); reflexivity.
Qed.

Lemma runs_of_epoch sess epoch (lg : epoch_log F) :
  runs_of (epoch_events f0 sess epoch lg) = epoch_runs f0 lg.
Proof.
  unfold epoch_events, epoch_runs, runs_of. rewrite keep_app.
  fold (runs_of (batches_events sess (X_of lg) (y_of lg) (range n_batches)
                   (zero_state f0) (answers lg))).
  rewrite runs_of_batches. reflexivity.
Qed.

Lemma runs_of_epochs sess epochs :
  forall logs : list (epoch_log F),
  length logs = length epochs ->
  runs_of (epochs_events f0 sess epochs logs)
  = concat (map (epoch_runs f0) logs).
Proof.
  induction epochs as [|e es IH]; intros [|lg logs] Hlen; try discriminate;
    [reflexivity|].
  cbn [epochs_events map concat]. unfold runs_of in *.
  rewrite keep_app. fold (runs_of (epoch_events f0 sess e lg)).
  rewrite runs_of_epoch, IH; [reflexivity|]. simpl in Hlen. lia.
Qed.

Lemma runs_of_completed sess (logs : list (epoch_log F)) :
  length logs = length (range n_epochs) ->
  runs_of (completed_trace f0 sess logs) = concat (map (epoch_runs f0) logs).
Proof.
  intros Hlen. unfold completed_trace, runs_of.
  rewrite !keep_app.
  fold (runs_of (epochs_events f0 sess (range n_epochs) logs)).
  rewrite runs_of_epochs by exact Hlen.
  change (keep (@run_of F) (map (built F) graph_objects)) with (@nil (run_record F)).
  cbn [keep flat_map run_of built plot_events app].
  now rewrite app_nil_r.
Qed.

Lemma batch_runs_length X_data y_data batches :
  forall (st : lstm_state F) rs,
  length rs = length batches ->
  length (batch_runs X_data y_data batches st rs) = length batches.
Proof.
  induction batches as [|b bs IH]; intros st [|r rs] Hlen; try discriminate;
    [reflexivity|].
  cbn [batch_runs length]. f_equal. apply IH. simpl in Hlen. lia.
Qed.

Lemma batch_runs_losses X_data y_data batches :
  forall (st : lstm_state F) rs,
  length rs = length batches ->
  map (@loss_of F) (batch_runs X_data y_data batches st rs)
  = map (fun r => fst (fst r)) rs.
Proof.
  induction batches as [|b bs IH]; intros st [|r rs] Hlen; try discriminate;
    [reflexivity|].
  cbn [batch_runs map]. f_equal. apply IH. simpl in Hlen. lia.
Qed.

Lemma batch_runs_threaded X_data y_data batches :
  forall (st : lstm_state F) rs,
  threaded st (batch_runs X_data y_data batches st rs).
Proof.
  induction batches as [|b bs IH]; intros st [|r rs]; try exact I.
  cbn [batch_runs threaded]. repeat split. apply IH.
Qed.
End Views.

Section MoreViews.
Variable F : Type.
Variable f0 : F.

(** *** Steps of the inner loop *)

Lemma steps_of_batches sess X_data y_data batches :
  forall (st : lstm_state F) rs,
  length rs = length batches ->
  steps_of (batches_events sess X_data y_data batches st rs)
  = concat (map2 (@batch_steps F) batches (map (fun r => fst (fst r)) rs)).
Proof.
  induction batches as [|b bs IH]; intros st [|r rs] Hlen; try discriminate;
    [reflexivity|].
  cbn [batches_events map map2 concat]. unfold steps_of in *.
  rewrite keep_app, IH by (simpl in Hlen; lia).
  f_equal.
  all: try (unfold batch_events, batch_steps;
            destruct (b mod 100 =? 0); reflexivity).
Qed.

Lemma steps_of_epoch sess epoch (lg : epoch_log F) :
  log_ok lg ->
  steps_of (epoch_events f0 sess epoch lg)
  = epoch_steps (losses_of_log lg).
Proof.
  intros [_ Hlen]. unfold epoch_events, steps_of. rewrite keep_app.
  fold (steps_of (batches_events sess (X_of lg) (y_of lg) (range n_batches)
                    (zero_state f0) (answers lg))).
  rewrite steps_of_batches by exact Hlen. reflexivity.
Qed.

Lemma steps_of_epochs sess epochs :
  forall logs : list (epoch_log F),
  length logs = length epochs ->
  Forall (@log_ok F) logs ->
  steps_of (epochs_events f0 sess epochs logs)
  = concat (map (fun lg => epoch_steps (losses_of_log lg)) logs).
Proof.
  induction epochs as [|e es IH]; intros [|lg logs] Hlen Hok; try discriminate;
    [reflexivity|].
  inversion Hok; subst.
  cbn [epochs_events map concat]. unfold steps_of in *.
  rewrite keep_app. fold (steps_of (epoch_events f0 sess e lg)).
  rewrite steps_of_epoch, IH; auto; simpl in Hlen; lia.
Qed.

Lemma steps_of_completed sess (logs : list (epoch_log F)) :
  length logs = length (range n_epochs) ->
  Forall (@log_ok F) logs ->
  steps_of (completed_trace f0 sess logs)
  = concat (map (fun lg => epoch_steps (losses_of_log lg)) logs).
Proof.
  intros Hlen Hok. unfold completed_trace, steps_of.
  rewrite !keep_app.
  fold (steps_of (epochs_events f0 sess (range n_epochs) logs)).
  rewrite steps_of_epochs by assumption.
  change (keep (@step_of F) (map (built F) graph_objects)) with (@nil (step F)).
  cbn [keep flat_map step_of built plot_events app].
  now rewrite app_nil_r.
Qed.

(** *** The plot and the draws *)

Lemma plotted_batches sess X_data y_data batches :
  forall (st : lstm_state F) rs,
  plotted (batches_events sess X_data y_data batches st rs) = [].
Proof.
  induction batches as [|b bs IH]; intros st [|r rs]; try reflexivity.
  cbn [batches_events]. unfold plotted in *. rewrite keep_app, IH.
  unfold batch_events. destruct (b mod 100 =? 0); reflexivity.
Qed.

Lemma plotted_epochs sess epochs :
  forall logs : list (epoch_log F),
  plotted (epochs_events f0 sess epochs logs) = [].
Proof.
  induction epochs as [|e es IH]; intros [|lg logs]; try reflexivity.
  cbn [epochs_events]. unfold plotted in *. rewrite keep_app, IH.
  unfold epoch_events. rewrite keep_app.
  fold (plotted (batches_events sess (X_of lg) (y_of lg) (range n_batches)
                   (zero_state f0) (answers lg))).
  rewrite plotted_batches. reflexivity.
Qed.

Lemma plotted_completed sess (logs : list (epoch_log F)) :
  plotted (completed_trace f0 sess logs)
  = [concat (map (@losses_of_log F) logs)].
Proof.
  unfold completed_trace, plotted. rewrite !keep_app.
  fold (plotted (epochs_events f0 sess (range n_epochs) logs)).
  rewrite plotted_epochs.
  change (keep (@plot_of F) (map (built F) graph_objects)) with (@nil (list F)).
  reflexivity.
Qed.

Lemma draws_of_batches sess X_data y_data batches :
  forall (st : lstm_state F) rs,
  draws_of (batches_events sess X_data y_data batches st rs) = [].
Proof.
  induction batches as [|b bs IH]; intros st [|r rs]; try reflexivity.
  cbn [batches_events]. unfold draws_of in *. rewrite keep_app, IH.
  unfold batch_events. destruct (b mod 100 =? 0); reflexivity.
Qed.

Lemma draws_of_epochs sess epochs :
  forall logs : list (epoch_log F),
  length logs = length epochs ->
  draws_of (epochs_events f0 sess epochs logs) = map (@drawn F) logs.
Proof.
  induction epochs as [|e es IH]; intros [|lg logs] Hlen; try discriminate;
    [reflexivity|].
  cbn [epochs_events map]. unfold draws_of in *. rewrite keep_app, IH
    by (simpl in Hlen; lia).
  unfold epoch_events. rewrite keep_app.
  fold (draws_of (batches_events sess (X_of lg) (y_of lg) (range n_batches)
                    (zero_state f0) (answers lg))).
  rewrite draws_of_batches. reflexivity.
Qed.

Lemma draws_of_completed sess (logs : list (epoch_log F)) :
  length logs = length (range n_epochs) ->
  draws_of (completed_trace f0 sess logs) = map (@drawn F) logs.
Proof.
  intros Hlen. unfold completed_trace, draws_of. rewrite !keep_app.
  fold (draws_of (epochs_events f0 sess (range n_epochs) logs)).
  rewrite draws_of_epochs by exact Hlen.
  change (keep (@draw_of F) (map (built F) graph_objects)) with (@nil (list Z)).
  cbn [keep flat_map draw_of built plot_events app].
  now rewrite app_nil_r.
Qed.

(** *** Stages *)

Lemma stages_batches sess X_data y_data batches :
  forall (st : lstm_state F) rs,
  length rs = length batches ->
  keep (@stage_of F) (batches_events sess X_data y_data batches st rs)
  = flat_map (fun b => SessionLoop ::
                if b mod 100 =? 0 then [SessionLoop] else []) batches.
Proof.
  induction batches as [|b bs IH]; intros st [|r rs] Hlen; try discriminate;
    [reflexivity|].
  cbn [batches_events flat_map]. rewrite keep_app, IH by (simpl in Hlen; lia).
  f_equal.
  all: try (unfold batch_events; destruct (b mod 100 =? 0); reflexivity).
Qed.

Lemma stages_epochs sess epochs :
  forall logs : list (epoch_log F),
  length logs = length epochs ->
  Forall (@log_ok F) logs ->
  keep (@stage_of F) (epochs_events f0 sess epochs logs)
  = flat_map (fun _ =>
      [SessionLoop; SessionLoop; DataGeneration]
      ++ flat_map (fun b => SessionLoop ::
                     if b mod 100 =? 0 then [SessionLoop] else [])
           (range n_batches)) epochs.
Proof.
  induction epochs as [|e es IH]; intros [|lg logs] Hlen Hok; try discriminate;
    [reflexivity|].
  inversion Hok as [|? ? [_ Hl] Hoks]; subst.
  cbn [epochs_events flat_map].
  rewrite keep_app, IH; auto; try (simpl in Hlen; lia).
  f_equal. unfold epoch_events. rewrite keep_app.
  rewrite stages_batches by exact Hl. reflexivity.
Qed.

Lemma stages_completed sess (logs : list (epoch_log F)) :
  length logs = length (range n_epochs) ->
  Forall (@log_ok F) logs ->
  stages_of (completed_trace f0 sess logs)
  = [Placeholders; LstmCell; DynamicUnroll; Reshape; Loss; Optimizer]
    ++ concat (repeat [SessionLoop; DataGeneration] (Z.to_nat n_epochs))
    ++ [SessionLoop].
Proof.
  intros Hlen Hok. unfold stages_of, completed_trace.
  rewrite !keep_app, stages_epochs by assumption.
  vm_compute. reflexivity.
Qed.
End MoreViews.

(** ** The small environment is well behaved *)

Lemma samples_length (n : nat) (a seed : Z) :
  length (Demo.samples n a seed) = n.
Proof. revert seed; induction n; intros; simpl; [reflexivity | now rewrite IHn]. Qed.

Lemma samples_range (n : nat) (a seed : Z) :
  0 < a -> Forall (fun v => 0 <= v < a) (Demo.samples n a seed).
Proof.
  intros Ha. revert seed; induction n; intros; simpl; constructor; auto.
  apply Z.mod_pos_bound. exact Ha.
Qed.

Lemma demo_never_raises : never_raises Demo.env.
Proof. intros X c0 w. destruct c0; simpl; eauto. Qed.

Lemma demo_honest_choice : honest_choice Demo.env.
Proof.
  intros a size w draw w1 Ha Hs H. simpl in H. inversion H; subst. split.
  - rewrite samples_length. lia.
  - apply samples_range. exact Ha.
Qed.

Lemma demo_completes (w : Z) : completes Demo.env (notebook 0) w = true.
Proof.
  apply well_behaved_completes; [exact demo_never_raises | exact demo_honest_choice].
Qed.

(** ** What the training loop feeds *)

Section Feeds.
Variable F : Type.
Variable f0 : F.
Variable W : Type.
Variable env : forall X, call F X -> W -> (exn + X) * W.

Lemma batch_runs_feeds X_data y_data batches :
  forall (st : lstm_state F) rs,
  Forall (fun r => exists b st',
            In b batches /\
            fetches r = (loss, optimizer, final_state) /\
            fed_dict r = batch_feed X_data y_data b st')
         (batch_runs X_data y_data batches st rs).
Proof.
  induction batches as [|b bs IH]; intros st [|r rs]; try constructor.
  - exists b, st. simpl. auto.
  - eapply Forall_impl; [|apply IH].
    intros r0 (b0 & st0 & Hin & Hf & Hd). exists b0, st0. simpl. auto.
Qed.

Lemma completed_runs_feeds (logs : list (epoch_log F)) :
  Forall (fun r => exists lg b st,
            In lg logs /\ 0 <= b < n_batches /\
            fetches r = (loss, optimizer, final_state) /\
            fed_dict r = batch_feed (X_of lg) (y_of lg) b st)
         (concat (map (epoch_runs f0) logs)).
Proof.
  apply Forall_concat, Forall_map, Forall_forall. intros lg Hlg.
  unfold epoch_runs. eapply Forall_impl; [|apply batch_runs_feeds].
  intros r (b & st & Hin & Hf & Hd). exists lg, b, st.
  apply In_range in Hin. auto.
Qed.

(** The data of an epoch when the generator is honest. *)
Lemma honest_epoch_data (lg : epoch_log F) :
  honest_choice env -> log_ok lg -> drawn_by env lg ->
  shape2 (X_of lg) batch_size (total_series_length / batch_size) /\
  shape2 (y_of lg) batch_size (total_series_length / batch_size) /\
  Forall (Forall (fun v => 0 <= v < n_classes)) (X_of lg) /\
  Forall (Forall (fun v => 0 <= v < n_classes)) (y_of lg).
Proof.
  intros Hh [Hg _] (w & w1 & Hd).
  assert (Hc : Z.of_nat (length (drawn lg)) = total_series_length /\
               Forall (fun v => 0 <= v < n_classes) (drawn lg)).
  { eapply Hh; [| | exact Hd]; [reflexivity | discriminate]. }
  destruct Hc as [Hlen Hr].
  destruct (generateData_from_ravel _ Hlen) as (x & y & E & Sx & Sy & Rx & Ry).
  rewrite E in Hg. inversion Hg; subst x y.
  repeat split; try apply Sx; try apply Sy.
  - apply Forall_concat. unfold ravel in Rx. rewrite Rx. exact Hr.
  - apply Forall_concat. unfold ravel in Ry. rewrite Ry.
    apply Forall_slice_fill; [unfold n_classes; lia|].
    apply Forall_np_roll. exact Hr.
Qed.

Lemma batch_bounds (b : Z) :
  0 <= b < n_batches ->
  0 <= b * truncated_backprop_steps /\
  b * truncated_backprop_steps + truncated_backprop_steps
    <= total_series_length / batch_size - 10.
Proof.
  change n_batches with 666. change (total_series_length / batch_size) with 10000.
  unfold truncated_backprop_steps. lia.
Qed.
End Feeds.

(** ** [generateData] *)

Section GenerateData.
Variable F : Type.
Variable W : Type.
Variable env : forall X, call F X -> W -> (exn + X) * W.

Lemma run_generateData (w : W) :
  run env (generateData F) w =
  match env (np_random_choice F n_classes total_series_length) w with
  | (inl e, w1) =>
      (inl e, w1, [Ev (np_random_choice F n_classes total_series_length) (inl e)])
  | (inr draw, w1) =>
      match generateData_from draw with
      | inl e =>
          (inl e, w1,
           [Ev (np_random_choice F n_classes total_series_length) (inr draw);
            Raised F e])
      | inr data =>
          (inr data, w1,
           [Ev (np_random_choice F n_classes total_series_length) (inr draw)])
      end
  end.
Proof.
  unfold generateData. rewrite run_bind. unfold call_. rewrite run_Call.
  destruct (env _ w) as [[e | draw] w1]; [reflexivity|].
  cbn [run]. destruct (generateData_from draw); reflexivity.
Qed.

(** C1: whenever [np.random.choice] hands back the 50000 samples it was asked
    for, [generateData] returns two integer arrays of shape (5, 10000) such
    that, flattened row by row, [y] is [x] delayed by [echo_step] = 3
    positions and zero before that. *)
Theorem generateData_echo (w : W) (draw : list Z) (w1 : W) :
  env (np_random_choice F n_classes total_series_length) w = (inr draw, w1) ->
  Z.of_nat (length draw) = total_series_length ->
  exists x y,
    outcome env (generateData F) w = inr (x, y) /\
    batch_size = 5 /\ total_series_length / batch_size = 10000 /\
    shape2 x 5 10000 /\ shape2 y 5 10000 /\
    Z.of_nat (length (ravel x)) = 50000 /\
    Z.of_nat (length (ravel y)) = 50000 /\
    echo_step = 3 /\
    (forall i, 3 <= i < 50000 -> item (ravel y) i = item (ravel x) (i - 3)) /\
    (forall i, 0 <= i < 3 -> item (ravel y) i = 0).
Proof.
  intros Henv Hlen.
  destruct (generateData_from_ravel draw Hlen) as (x & y & E & Sx & Sy & Rx & Ry).
  exists x, y. unfold outcome. rewrite run_generateData, Henv, E.
  repeat split; try apply Sx; try apply Sy.
  - rewrite Rx. exact Hlen.
  - rewrite Ry, slice_fill_length, np_roll_length. exact Hlen.
  - intros i Hi. rewrite Rx, Ry. apply echo_item; [exact Hlen | exact Hi].
  - intros i Hi. rewrite Ry. apply echo_item_head; [exact Hlen | exact Hi].
Qed.

(** C10: when [np.random.choice] hands back 50000 samples of
    [range(n_classes)], every entry of both arrays [generateData] returns is
    0 or 1, and so is every entry of every column slice of them, which is
    what the loop feeds to [y_placeholder]. *)
Theorem generateData_classes (w : W) (draw : list Z) (w1 : W) :
  env (np_random_choice F n_classes total_series_length) w = (inr draw, w1) ->
  Z.of_nat (length draw) = total_series_length ->
  Forall (fun v => 0 <= v < n_classes) draw ->
  exists x y,
    outcome env (generateData F) w = inr (x, y) /\
    n_classes = 2 /\
    Forall (Forall (fun v => v = 0 \/ v = 1)) x /\
    Forall (Forall (fun v => v = 0 \/ v = 1)) y /\
    forall lo hi,
      Forall (Forall (fun v => 0 <= v < n_classes)) (col_slice x lo hi) /\
      Forall (Forall (fun v => 0 <= v < n_classes)) (col_slice y lo hi).
Proof.
  intros Henv Hlen Hr.
  destruct (generateData_from_ravel draw Hlen) as (x & y & E & Sx & Sy & Rx & Ry).
  exists x, y. unfold outcome. rewrite run_generateData, Henv, E.
  assert (Hx : Forall (Forall (fun v => 0 <= v < n_classes)) x).
  { apply Forall_concat. unfold ravel in Rx. rewrite Rx. exact Hr. }
  assert (Hy : Forall (Forall (fun v => 0 <= v < n_classes)) y).
  { apply Forall_concat. unfold ravel in Ry. rewrite Ry.
    apply Forall_slice_fill; [unfold n_classes; lia|].
    apply Forall_np_roll. exact Hr. }
  assert (Hbit : forall m : matrix Z,
             Forall (Forall (fun v => 0 <= v < n_classes)) m ->
             Forall (Forall (fun v => v = 0 \/ v = 1)) m).
  { intros m Hm. eapply Forall_impl; [|exact Hm]. intros r Hrow.
    eapply Forall_impl; [|exact Hrow]. unfold n_classes. intros v Hv.
    simpl in Hv. lia. }
  repeat split; auto; apply Forall_col_slice; assumption.
Qed.
End GenerateData.

(** Witness of C1 in the small environment. *)
Lemma generateData_echo_witness :
  exists x y,
    outcome Demo.env (generateData Z) 0 = inr (x, y) /\
    batch_size = 5 /\ total_series_length / batch_size = 10000 /\
    shape2 x 5 10000 /\ shape2 y 5 10000 /\
    Z.of_nat (length (ravel x)) = 50000 /\
    Z.of_nat (length (ravel y)) = 50000 /\
    echo_step = 3 /\
    (forall i, 3 <= i < 50000 -> item (ravel y) i = item (ravel x) (i - 3)) /\
    (forall i, 0 <= i < 3 -> item (ravel y) i = 0).
Proof.
  apply (@generateData_echo Z Z Demo.env 0
           (Demo.samples (Z.to_nat total_series_length) n_classes 0) (0 + 1)).
  - reflexivity.
  - rewrite samples_length. reflexivity.
Defined.

(** Witness of C10 in the small environment. *)
Lemma generateData_classes_witness :
  exists x y,
    outcome Demo.env (generateData Z) 0 = inr (x, y) /\
    n_classes = 2 /\
    Forall (Forall (fun v => v = 0 \/ v = 1)) x /\
    Forall (Forall (fun v => v = 0 \/ v = 1)) y /\
    forall lo hi,
      Forall (Forall (fun v => 0 <= v < n_classes)) (col_slice x lo hi) /\
      Forall (Forall (fun v => 0 <= v < n_classes)) (col_slice y lo hi).
Proof.
  apply (@generateData_classes Z Z Demo.env 0
           (Demo.samples (Z.to_nat total_series_length) n_classes 0) (0 + 1)).
  - reflexivity.
  - rewrite samples_length. reflexivity.
  - apply samples_range. reflexivity.
Defined.

(** ** The placeholders *)

Lemma accepts_fixed (id : nat) (dt : dtype) (rows cols : Z) (s : list Z) :
  accepts_feed (tf_placeholder id dt [Some rows; Some cols]) s = true
  <-> s = [rows; cols].
Proof.
  simpl. split.
  - destruct s as [|a [|b [|? ?]]]; simpl; try discriminate.
    + rewrite andb_false_r. discriminate.
    + rewrite andb_true_r. intros H. apply andb_true_iff in H as [H1 H2].
      apply Z.eqb_eq in H1, H2. now subst.
    + rewrite !andb_false_r. discriminate.
  - intros ->. simpl. now rewrite !Z.eqb_refl.
Qed.

(** C2 as stated fails: the input placeholder takes no two sequence
    lengths; a batch of ten steps is refused while one of fifteen is taken. *)
Lemma fixed_length_counterexample :
  ~ accepts_varying_length X_placeholder /\
  accepts_feed X_placeholder [5; 15] = true /\
  accepts_feed X_placeholder [5; 10] = false.
Proof.
  split; [|split; reflexivity].
  intros (t1 & t2 & Hne & H1 & H2).
  apply accepts_fixed in H1, H2. congruence.
Qed.

(** C2, amended: the graph unrolls the LSTM with [tf.nn.dynamic_rnn], but
    its placeholders are declared with the full shape (5, 15), so a feed is
    accepted exactly when it has that shape: one sequence length, 15. *)
Theorem placeholders_fixed_shape (s : list Z) :
  rnn = tf_nn_dynamic_rnn lstm_cell (tf_expand_dims X_placeholder (-1)) init_state /\
  (accepts_feed X_placeholder s = true <-> s = [5; 15]) /\
  (accepts_feed y_placeholder s = true <-> s = [5; 15]).
Proof.
  split; [reflexivity|]. split; apply accepts_fixed.
Qed.

(** ** The run as a whole *)

Section Claims.
Variable F : Type.
Variable f0 : F.
Variable W : Type.
Variable env : forall X, call F X -> W -> (exn + X) * W.

(** C3, amended: in a run that completes, the placeholders come first, then
    the LSTM cell, the dynamic unrolling, the reshapes, the loss and the
    optimizer; only then does the session loop start, and data generation
    happens inside it, once at the start of each of the 20 epochs. *)
Theorem stages_in_order (w : W) :
  completes env (notebook f0) w = true ->
  stages_of (trace env (notebook f0) w)
  = [Placeholders; LstmCell; DynamicUnroll; Reshape; Loss; Optimizer]
    ++ concat (repeat [SessionLoop; DataGeneration] 20)
    ++ [SessionLoop].
Proof.
  intros H.
  apply completed_notebook_trace in H as (sess & logs & Hlen & Hok & _ & ->).
  now apply stages_completed.
Qed.

Lemma fed_count_batches (batches : list Z) :
  forall losses : list F,
  length losses = length batches ->
  length (filter (@is_fed F) (concat (map2 (@batch_steps F) batches losses)))
  = length batches.
Proof.
  induction batches as [|b bs IH]; intros [|v vs] Hlen; try discriminate;
    [reflexivity|].
  cbn [map2 concat]. rewrite filter_app, length_app.
  rewrite (IH vs) by (simpl in Hlen; lia).
  unfold batch_steps. destruct (b mod 100 =? 0); reflexivity.
Qed.

Lemma printed_count_batches (batches : list Z) :
  forall losses : list F,
  length losses = length batches ->
  length (filter (@is_printed F) (concat (map2 (@batch_steps F) batches losses)))
  = length (filter (fun b => b mod 100 =? 0) batches).
Proof.
  induction batches as [|b bs IH]; intros [|v vs] Hlen; try discriminate;
    [reflexivity|].
  cbn [map2 concat filter]. rewrite filter_app, length_app.
  rewrite (IH vs) by (simpl in Hlen; lia).
  unfold batch_steps. destruct (b mod 100 =? 0); reflexivity.
Qed.

Lemma count_concat_uniform A (p : A -> bool) (k : nat) (ls : list (list A)) :
  Forall (fun l0 => length (filter p l0) = k) ls ->
  length (filter p (concat ls)) = (length ls * k)%nat.
Proof.
  induction 1 as [|x xs Hx _ IH]; [reflexivity|].
  cbn [concat length]. rewrite filter_app, length_app, IH, Hx. lia.
Qed.

Lemma losses_of_log_length (lg : epoch_log F) :
  log_ok lg -> length (losses_of_log lg) = Z.to_nat n_batches.
Proof.
  intros [_ H]. unfold losses_of_log. now rewrite length_map, H, range_length.
Qed.

(** What the inner loop shows in a run that completes. *)
Lemma completed_steps (w : W) :
  completes env (notebook f0) w = true ->
  exists losses : list (list F),
    Z.of_nat (length losses) = 20 /\
    Forall (fun ls => Z.of_nat (length ls) = 666) losses /\
    steps_of (trace env (notebook f0) w) = concat (map (@epoch_steps F) losses) /\
    Z.of_nat (length (filter (@is_fed F) (steps_of (trace env (notebook f0) w))))
      = 13320 /\
    Z.of_nat (length (filter (@is_printed F) (steps_of (trace env (notebook f0) w))))
      = 140.
Proof.
  intros H.
  apply completed_notebook_trace in H as (sess & logs & Hlen & Hok & _ & ->).
  rewrite steps_of_completed by assumption.
  rewrite <- (map_map (@losses_of_log F) (@epoch_steps F)).
  assert (Hls : Forall (fun ls : list F => length ls = Z.to_nat n_batches)
                  (map (@losses_of_log F) logs)).
  { apply Forall_map. eapply Forall_impl; [|exact Hok].
    intros lg Hlg. now apply losses_of_log_length. }
  exists (map (@losses_of_log F) logs). repeat split.
  - rewrite length_map, Hlen, range_length. reflexivity.
  - eapply Forall_impl; [|exact Hls]. intros ls Hl. simpl in Hl.
    rewrite Hl. reflexivity.
  - rewrite (@count_concat_uniform _ _ (Z.to_nat n_batches)).
    + rewrite !length_map, Hlen, range_length. reflexivity.
    + apply Forall_map. eapply Forall_impl; [|exact Hls].
      intros ls Hl. unfold epoch_steps. rewrite fed_count_batches.
      * apply range_length.
      * rewrite Hl. symmetry. apply range_length.
  - rewrite (@count_concat_uniform _ _
               (length (filter (fun b => b mod 100 =? 0) (range n_batches)))).
    + rewrite !length_map, Hlen, range_length. vm_compute. reflexivity.
    + apply Forall_map. eapply Forall_impl; [|exact Hls].
      intros ls Hl. unfold epoch_steps. rewrite printed_count_batches.
      * reflexivity.
      * rewrite Hl. symmetry. apply range_length.
Qed.

(** C4, amended: in a run that completes, each of the 20 epochs feeds every
    batch index of [range(n_batches)] to the session, 13320 runs in all, and
    the loss of a batch is printed exactly when its index is a multiple of
    100: 7 step lines an epoch, 140 in all. *)
Theorem feeds_and_prints (w : W) :
  completes env (notebook f0) w = true ->
  exists losses : list (list F),
    Z.of_nat (length losses) = 20 /\
    Forall (fun ls => Z.of_nat (length ls) = 666) losses /\
    steps_of (trace env (notebook f0) w)
    = concat (map (fun ls =>
        concat (map2 (fun b v =>
          Fed v :: (if b mod 100 =? 0 then [Printed b v] else []))
          (range n_batches) ls)) losses) /\
    Z.of_nat (length (filter (@is_fed F) (steps_of (trace env (notebook f0) w))))
      = 13320 /\
    Z.of_nat (length (filter (@is_printed F) (steps_of (trace env (notebook f0) w))))
      = 140.
Proof. exact (completed_steps w). Qed.

(** C6: after a run that completes, the list handed to [plt.plot] is the
    list of losses the session runs returned, in the order of the runs, and
    it has [n_epochs * n_batches] = 13320 entries. *)
Theorem plot_shows_all_losses (w : W) :
  completes env (notebook f0) w = true ->
  plotted (trace env (notebook f0) w)
  = [map (@loss_of F) (runs_of (trace env (notebook f0) w))] /\
  Z.of_nat (length (runs_of (trace env (notebook f0) w))) = n_epochs * n_batches /\
  n_epochs * n_batches = 13320.
Proof.
  intros H.
  apply completed_notebook_trace in H as (sess & logs & Hlen & Hok & _ & ->).
  rewrite plotted_completed, runs_of_completed by exact Hlen.
  split; [|split; [|reflexivity]].
  - f_equal. rewrite concat_map, map_map. f_equal.
    apply map_ext_Forall. eapply Forall_impl; [|exact Hok].
    intros lg [_ Hl]. unfold epoch_runs, losses_of_log.
    now rewrite batch_runs_losses.
  - rewrite (@length_concat_uniform _ (Z.to_nat n_batches)).
    + rewrite length_map, Hlen, range_length. reflexivity.
    + apply Forall_map. eapply Forall_impl; [|exact Hok].
      intros lg [_ Hl]. unfold epoch_runs.
      rewrite batch_runs_length by exact Hl. apply range_length.
Qed.

Lemma np_zeros_shape (rows cols : Z) :
  0 <= rows -> 0 <= cols ->
  shape2 (np_zeros f0 rows cols) rows cols /\
  Forall (Forall (eq f0)) (np_zeros f0 rows cols).
Proof.
  intros Hr Hc. unfold np_zeros, shape2. rewrite repeat_length.
  repeat split.
  - lia.
  - apply Forall_repeat. rewrite repeat_length. lia.
  - apply Forall_repeat. apply Forall_repeat. reflexivity.
Qed.

(** C8: in a run that completes, the session runs fall into 20 epochs of
    666 runs; the first run of every epoch is fed all-zero cell and hidden
    states of shape (5, 20), and every later run of the epoch is fed the
    state the run before it returned. *)
Theorem state_is_threaded (w : W) :
  completes env (notebook f0) w = true ->
  exists epochs : list (list (run_record F)),
    runs_of (trace env (notebook f0) w) = concat epochs /\
    Z.of_nat (length epochs) = 20 /\
    Forall (fun ep => Z.of_nat (length ep) = 666 /\
                      threaded (zero_state f0) ep) epochs /\
    zero_state f0 = (np_zeros f0 5 20, np_zeros f0 5 20) /\
    shape2 (np_zeros f0 5 20) 5 20 /\
    Forall (Forall (eq f0)) (np_zeros f0 5 20).
Proof.
  intros H.
  apply completed_notebook_trace in H as (sess & logs & Hlen & Hok & _ & ->).
  exists (map (epoch_runs f0) logs).
  rewrite runs_of_completed by exact Hlen.
  repeat split; try (apply np_zeros_shape; lia).
  - rewrite length_map, Hlen, range_length. reflexivity.
  - apply Forall_map. eapply Forall_impl; [|exact Hok].
    intros lg [_ Hl]. unfold epoch_runs. split.
    + rewrite batch_runs_length, range_length by exact Hl. reflexivity.
    + apply batch_runs_threaded.
Qed.

End Claims.

(** ** The claims in the small environment *)

(** C3 as stated fails: in the completed run of the small environment the
    first stage is the placeholders, and the stages are not the cells' order
    with data generation first. *)
Lemma data_generation_not_first :
  hd_error (stages_of (trace Demo.env (notebook 0) 0)) = Some Placeholders /\
  stages_of (trace Demo.env (notebook 0) 0) <> cell_order.
Proof.
  destruct (@completed_notebook_trace Z 0 Z Demo.env 0 (demo_completes 0))
    as (sess & logs & Hlen & Hok & _ & E).
  rewrite E, stages_completed by assumption.
  split; [reflexivity | discriminate].
Qed.

(** Witness of C3, amended. *)
Lemma stages_in_order_witness :
  stages_of (trace Demo.env (notebook 0) 0)
  = [Placeholders; LstmCell; DynamicUnroll; Reshape; Loss; Optimizer]
    ++ concat (repeat [SessionLoop; DataGeneration] 20)
    ++ [SessionLoop].
Proof.
  apply (@stages_in_order Z 0 Z Demo.env 0). apply demo_completes.
Defined.

(** C4 as stated fails: the completed run of the small environment prints
    fewer step lines than it makes session runs. *)
Lemma not_every_loss_printed :
  ~ every_loss_printed (trace Demo.env (notebook 0) 0).
Proof.
  unfold every_loss_printed.
  destruct (@completed_steps Z 0 Z Demo.env 0 (demo_completes 0)) as (losses & _ & _ & _ & Hf & Hp).
  intros H. rewrite H in Hp. rewrite Hp in Hf. discriminate Hf.
Qed.

(** Witness of C4, amended. *)
Lemma feeds_and_prints_witness :
  exists losses : list (list Z),
    Z.of_nat (length losses) = 20 /\
    Forall (fun ls => Z.of_nat (length ls) = 666) losses /\
    steps_of (trace Demo.env (notebook 0) 0)
    = concat (map (fun ls =>
        concat (map2 (fun b v =>
          Fed v :: (if b mod 100 =? 0 then [Printed b v] else []))
          (range n_batches) ls)) losses) /\
    Z.of_nat (length (filter (@is_fed Z) (steps_of (trace Demo.env (notebook 0) 0))))
      = 13320 /\
    Z.of_nat (length (filter (@is_printed Z) (steps_of (trace Demo.env (notebook 0) 0))))
      = 140.
Proof.
  apply (@feeds_and_prints Z 0 Z Demo.env 0). apply demo_completes.
Defined.

(** Witness of C6. *)
Lemma plot_shows_all_losses_witness :
  plotted (trace Demo.env (notebook 0) 0)
  = [map (@loss_of Z) (runs_of (trace Demo.env (notebook 0) 0))] /\
  Z.of_nat (length (runs_of (trace Demo.env (notebook 0) 0))) = n_epochs * n_batches /\
  n_epochs * n_batches = 13320.
Proof.
  apply (@plot_shows_all_losses Z 0 Z Demo.env 0). apply demo_completes.
Defined.

(** Witness of C8. *)
Lemma state_is_threaded_witness :
  exists epochs : list (list (run_record Z)),
    runs_of (trace Demo.env (notebook 0) 0) = concat epochs /\
    Z.of_nat (length epochs) = 20 /\
    Forall (fun ep => Z.of_nat (length ep) = 666 /\
                      threaded (zero_state 0) ep) epochs /\
    zero_state 0 = (np_zeros 0 5 20, np_zeros 0 5 20) /\
    shape2 (np_zeros 0 5 20) 5 20 /\
    Forall (Forall (eq 0)) (np_zeros 0 5 20).
Proof.
  apply (@state_is_threaded Z 0 Z Demo.env 0). apply demo_completes.
Defined.

(** ** The loss *)

Section LossValue.
Variable F : Type.
Variable f0 : F.
Variables fadd fmul : F -> F -> F.
Variable of_int : Z -> F.
Variable lib_dynamic_rnn :
  Z -> tensor F -> tensor F -> tensor F ->
  option (tensor F * (tensor F * tensor F)).
Variable lib_xent : Z -> list F -> F.
Variable lib_mean : list F -> F.

Local Abbreviation eval_ := (eval f0 fadd fmul of_int lib_dynamic_rnn lib_xent lib_mean).

Lemma chunks_concat A (w : nat) (rows : matrix A) :
  Forall (fun r => length r = w) rows ->
  chunks w (length rows) (concat rows) = rows.
Proof.
  induction 1 as [|r rows Hr _ IH]; [reflexivity|].
  cbn [length concat chunks].
  replace (firstn w (r ++ concat rows)) with r.
  - replace (skipn w (r ++ concat rows)) with (concat rows).
    + now rewrite IH.
    + rewrite <- Hr, skipn_app, Nat.sub_diag, skipn_all. reflexivity.
  - rewrite <- Hr, firstn_app, Nat.sub_diag, firstn_all, firstn_O.
    now rewrite app_nil_r.
Qed.

Lemma rows_of_concat A (w : Z) (rows : matrix A) :
  0 < w ->
  Forall (fun r => Z.of_nat (length r) = w) rows ->
  rows_of w (concat rows) = rows.
Proof.
  intros Hw Hrows. unfold rows_of.
  assert (Hn : Forall (fun r => length r = Z.to_nat w) rows).
  { eapply Forall_impl; [|exact Hrows]. intros r Hr. simpl in Hr. lia. }
  rewrite (length_concat_uniform Hn).
  replace (Z.to_nat (Z.of_nat (length rows * Z.to_nat w) / w)) with (length rows).
  - now apply chunks_concat.
  - rewrite Nat2Z.inj_mul, Z2Nat.id, Z.div_mul by lia. lia.
Qed.

Lemma rows_of_shape A (w n : Z) (buf : list A) :
  0 < w -> 0 <= n -> Z.of_nat (length buf) = n * w ->
  Z.of_nat (length (rows_of w buf)) = n /\
  Forall (fun r => Z.of_nat (length r) = w) (rows_of w buf).
Proof.
  intros Hw Hn Hlen. unfold rows_of. rewrite Hlen, Z.div_mul by lia. split.
  - rewrite chunks_length. lia.
  - eapply Forall_impl; [|apply chunks_width; nia].
    intros r Hr. simpl in Hr. lia.
Qed.

Lemma vec_mat_length (n : Z) (u : list F) (m : matrix F) :
  length (vec_mat f0 fadd fmul n u m) = Z.to_nat n.
Proof. unfold vec_mat. now rewrite length_map, length_seq. Qed.

Lemma map2_length A B C (f : A -> B -> C) (xs : list A) (ys : list B) :
  length (map2 f xs ys) = Nat.min (length xs) (length ys).
Proof.
  revert ys; induction xs as [|x xs IH]; intros [|y ys]; simpl; auto.
Qed.

Lemma logits_row_length (Vv cv : tensor F) (h : list F) :
  Z.of_nat (length (data cv)) = n_classes ->
  Z.of_nat (length (logits_row f0 fadd fmul Vv cv h)) = n_classes.
Proof.
  intros Hc. unfold logits_row, vec_add.
  rewrite map2_length, vec_mat_length. lia.
Qed.
(** C5: with the four placeholders fed at their declared shapes and the
    variables [V] (20 x 2) and [c] (2) at hand, the loss the graph computes
    is the library mean of the library sparse cross entropies of the 75
    flattened labels against the 75 rows of logits, each row being a row of
    the reshaped LSTM outputs times [V] plus [c]. *)
Theorem loss_is_mean_cross_entropy
    (b : bindings F) (Xv yv : tensor Z) (c0 h0 Vv cv outs fc fh : tensor F) :
  fed b 0%nat = Some (IntT F Xv) -> well_shaped Xv [5; 15] ->
  fed b 1%nat = Some (IntT F yv) -> well_shaped yv [5; 15] ->
  fed b 2%nat = Some (FloatT c0) -> well_shaped c0 [5; 20] ->
  fed b 3%nat = Some (FloatT h0) -> well_shaped h0 [5; 20] ->
  variable_value b 0%nat = Some Vv -> well_shaped Vv [20; 2] ->
  variable_value b 1%nat = Some cv -> well_shaped cv [2] ->
  lib_dynamic_rnn 20 (Tensor [5; 15; 1] (map of_int (data Xv))) c0 h0
    = Some (outs, (fc, fh)) ->
  well_shaped outs [5; 15; 20] ->
  loss = tf_reduce_mean
           (sparse_softmax_cross_entropy_with_logits
              (tf_reshape y_placeholder [-1])
              (tf_add (tf_matmul (tf_reshape outputs [-1; n_hidden]) V) c)) /\
  eval_ b loss
  = Some (FloatT (Tensor []
      [lib_mean (map2 lib_xent (data yv)
                   (map (logits_row f0 fadd fmul Vv cv)
                        (rows_of n_hidden (data outs))))])) /\
  Z.of_nat (length (data yv)) = batch_size * truncated_backprop_steps /\
  Z.of_nat (length (rows_of n_hidden (data outs)))
    = batch_size * truncated_backprop_steps /\
  batch_size * truncated_backprop_steps = 75.
Proof.
  intros HX [DX LX] Hy [Dy Ly] Hc0 [Dc0 Lc0] Hh0 [Dh0 Lh0]
         HV [DV LV] Hcv [Dcv Lcv] Hrnn [Do Lo].
  split; [reflexivity|].
  assert (Hrows : Z.of_nat (length (rows_of n_hidden (data outs))) = 75 /\
                  Forall (fun r => Z.of_nat (length r) = n_hidden)
                         (rows_of n_hidden (data outs))).
  { apply rows_of_shape; [reflexivity | lia | rewrite Lo; reflexivity]. }
  destruct Hrows as [Hrn Hrw].
  split; [|split; [rewrite Ly; reflexivity | split; [exact Hrn | reflexivity]]].
  (* the labels *)
  assert (Ey : eval_ b y_temp = Some (IntT F (Tensor [75] (data yv)))).
  { unfold y_temp, y_placeholder. cbn [eval]. rewrite Hy. cbn [feed_value].
    rewrite Dy.
    change (is_compatible_with [Some batch_size; Some truncated_backprop_steps] [5; 15])
      with true.
    cbv iota. unfold reshape_value. rewrite Dy. reflexivity. }
  (* the unrolled outputs *)
  assert (Eo : eval_ b outputs = Some (FloatT outs)).
  { unfold outputs, rnn, lstm_cell, init_state, X_placeholder, cell_state,
      hidden_state.
    cbn [eval]. rewrite HX, Hc0, Hh0. cbn [feed_value].
    rewrite DX, Dc0, Dh0.
    change (is_compatible_with [Some batch_size; Some truncated_backprop_steps] [5; 15])
      with true.
    change (is_compatible_with [Some batch_size; Some n_hidden] [5; 20]) with true.
    cbv iota. cbn [dims data].
    change (expand_shape [5; 15] (-1)) with (Some [5; 15; 1]). cbv iota.
    change n_hidden with 20. rewrite Hrnn. reflexivity. }
  assert (Et : eval_ b temp = Some (FloatT (Tensor [75; 20] (data outs)))).
  { unfold temp. cbn [eval]. rewrite Eo. unfold reshape_value. rewrite Do.
    reflexivity. }
  (* the logits *)
  set (logit_rows := map (fun u => vec_mat f0 fadd fmul 2 u (rows_of 2 (data Vv)))
                         (rows_of 20 (data outs))).
  assert (Hlw : Forall (fun r => Z.of_nat (length r) = 2) logit_rows).
  { unfold logit_rows. apply Forall_map, Forall_forall. intros u _.
    rewrite vec_mat_length. reflexivity. }
  assert (El : eval_ b l
               = Some (FloatT (Tensor [75; 2]
                   (concat (map (logits_row f0 fadd fmul Vv cv)
                                (rows_of 20 (data outs))))))).
  { unfold l. cbn [eval]. rewrite Et. unfold V at 1, c at 1. cbn [eval].
    rewrite HV, Hcv. cbn [option_map]. unfold matmul. cbn [dims data].
    rewrite DV. change (20 =? 20) with true. cbv iota. cbn [option_map].
    unfold bias_add. cbn [dims data]. rewrite Dcv.
    change (2 =? 2) with true. cbv iota. cbn [option_map].
    fold logit_rows.
    rewrite rows_of_concat by (try exact Hlw; lia).
    unfold logit_rows. rewrite map_map. reflexivity. }
  unfold loss. cbn [eval]. rewrite Ey, El. unfold sparse_xent. cbn [dims data].
  change (75 =? 75) with true. cbv iota. cbn [option_map data].
  rewrite rows_of_concat.
  - reflexivity.
  - reflexivity.
  - apply Forall_map, Forall_forall. intros u _.
    apply logits_row_length. rewrite Lcv. reflexivity.
Qed.
End LossValue.

(** Witness of C5 with the toy library. *)
Lemma loss_is_mean_cross_entropy_witness :
  loss = tf_reduce_mean
           (sparse_softmax_cross_entropy_with_logits
              (tf_reshape y_placeholder [-1])
              (tf_add (tf_matmul (tf_reshape outputs [-1; n_hidden]) V) c)) /\
  eval 0 Z.add Z.mul (fun z => z) Demo.dynamic_rnn Demo.xent Demo.mean
       Demo.fed_values loss
  = Some (FloatT (Tensor []
      [Demo.mean (map2 Demo.xent (data (Demo.ones [5; 15]))
                   (map (logits_row 0 Z.add Z.mul (Demo.ones [20; 2]) (Demo.ones [2]))
                        (rows_of n_hidden (data (Demo.ones [5; 15; 20])))))])) /\
  Z.of_nat (length (data (Demo.ones [5; 15]))) = batch_size * truncated_backprop_steps /\
  Z.of_nat (length (rows_of n_hidden (data (Demo.ones [5; 15; 20]))))
    = batch_size * truncated_backprop_steps /\
  batch_size * truncated_backprop_steps = 75.
Proof.
  apply (@loss_is_mean_cross_entropy Z 0 Z.add Z.mul (fun z => z)
           Demo.dynamic_rnn Demo.xent Demo.mean Demo.fed_values
           (Demo.ones [5; 15]) (Demo.ones [5; 15])
           (Demo.ones [5; 20]) (Demo.ones [5; 20])
           (Demo.ones [20; 2]) (Demo.ones [2])
           (Demo.ones [5; 15; 20]) (Demo.ones [5; 20]) (Demo.ones [5; 20]));
    try reflexivity; split; reflexivity.
Defined.

(** * Further properties *)

(** ** [generateData] on draws of any length *)

Lemma echo_closed_form (draw : list Z) :
  (3 < length draw)%nat ->
  slice_fill (np_roll draw echo_step) 0 echo_step 0
  = firstn (length draw) (repeat 0 3 ++ draw).
Proof.
  intros Hn. unfold np_roll, echo_step.
  destruct (Z.eqb_spec (Z.of_nat (length draw)) 0) as [E | _]; [lia|].
  rewrite Z.mod_small by lia.
  set (k := (length draw - Z.to_nat 3)%nat).
  assert (Hk : k = (length draw - 3)%nat) by (unfold k; lia).
  unfold slice_fill.
  assert (Hlen : length (skipn k draw ++ firstn k draw) = length draw).
  { rewrite length_app, length_skipn, length_firstn. lia. }
  rewrite Hlen, !slice_bound_in by lia.
  change (Z.to_nat 0) with 0%nat. change (Z.to_nat 3) with 3%nat.
  rewrite firstn_0, Nat.sub_0_r, Nat.max_0_l, app_nil_l.
  rewrite skipn_app, length_skipn.
  replace (3 - (length draw - k))%nat with 0%nat by lia.
  rewrite skipn_O, (skipn_all2 (n := 3)) by (rewrite length_skipn; lia).
  rewrite app_nil_l, firstn_app, repeat_length.
  rewrite (firstn_all2 (n := length draw)) by (rewrite repeat_length; lia).
  now rewrite Hk.
Qed.

(** X1: for a draw of any length 5 k, [generateData]'s array part returns
    two arrays of shape (5, k): [x] is the draw itself, untouched by the
    assignment to [y], and [y] is three zeros followed by the draw, cut to
    the draw's length. *)
Theorem generateData_from_any_length (draw : list Z) (k : Z) :
  Z.of_nat (length draw) = batch_size * k ->
  exists x y,
    generateData_from draw = inr (x, y) /\
    shape2 x 5 k /\ shape2 y 5 k /\
    ravel x = draw /\
    ravel y = firstn (length draw) ([0; 0; 0] ++ draw).
Proof.
  intros Hlen.
  assert (Hk : 0 <= k) by (unfold batch_size in Hlen; lia).
  unfold generateData_from, np_array.
  set (y := slice_fill (np_roll draw echo_step) 0 echo_step 0).
  assert (Hy : Z.of_nat (length y) = batch_size * k).
  { unfold y. now rewrite slice_fill_length, np_roll_length. }
  destruct (@np_reshape_rows_ok Z draw batch_size k)
    as (mx & Ex & Sx & Rx); [reflexivity | exact Hk | exact Hlen |].
  destruct (@np_reshape_rows_ok Z y batch_size k)
    as (my & Ey & Sy & Ry); [reflexivity | exact Hk | exact Hy |].
  rewrite Ex, Ey. exists mx, my.
  split; [reflexivity|]. split; [exact Sx|]. split; [exact Sy|].
  split; [exact Rx|]. rewrite Ry. unfold y.
  destruct (Z.eq_dec k 0) as [-> | Hk0].
  - destruct draw; [reflexivity | simpl in Hlen; lia].
  - apply echo_closed_form. unfold batch_size in Hlen. lia.
Qed.

(** Witness of X1 on ten samples. *)
Lemma generateData_from_any_length_witness :
  exists x y,
    generateData_from [1; 0; 1; 1; 0; 1; 0; 0; 1; 1] = inr (x, y) /\
    shape2 x 5 2 /\ shape2 y 5 2 /\
    ravel x = [1; 0; 1; 1; 0; 1; 0; 0; 1; 1] /\
    ravel y = firstn 10 ([0; 0; 0] ++ [1; 0; 1; 1; 0; 1; 0; 0; 1; 1]).
Proof.
  apply (@generateData_from_any_length [1; 0; 1; 1; 0; 1; 0; 0; 1; 1] 2).
  reflexivity.
Defined.


(** ** Rows and columns of the data *)

Lemma item_ravel (m : matrix Z) (cols : Z) :
  0 <= cols ->
  Forall (fun r => Z.of_nat (length r) = cols) m ->
  forall r j,
    0 <= r < Z.of_nat (length m) -> 0 <= j < cols ->
    item (ravel m) (r * cols + j) = item (nth (Z.to_nat r) m []) j.
Proof.
  intros Hc Hm. induction Hm as [|row rows Hrow _ IH]; intros r j Hr Hj.
  - simpl in Hr. lia.
  - unfold ravel, item in *. cbn [concat].
    destruct (Z.eq_dec r 0) as [-> | Hr0].
    + rewrite Z.mul_0_l, Z.add_0_l. change (Z.to_nat 0) with 0%nat.
      cbn [nth]. apply app_nth1. lia.
    + rewrite app_nth2 by nia.
      replace (Z.to_nat (r * cols + j) - length row)%nat
        with (Z.to_nat ((r - 1) * cols + j)) by nia.
      rewrite IH by (cbn [length] in Hr; lia).
      replace (Z.to_nat r) with (S (Z.to_nat (r - 1))) by lia.
      reflexivity.
Qed.

(** X2: seen as 5 rows of 10000 columns, the echo runs on across the row
    boundaries: entry [j] of row [r] of [y] is entry [j - 3] of the same row
    of [x] when [j >= 3]; otherwise it is entry [9997 + j] of the row above,
    and 0 in the first row. *)
Theorem echo_across_rows (draw : list Z) :
  Z.of_nat (length draw) = total_series_length ->
  exists x y,
    generateData_from draw = inr (x, y) /\
    forall r j, 0 <= r < 5 -> 0 <= j < 10000 ->
      (3 <= j ->
       item (nth (Z.to_nat r) y []) j = item (nth (Z.to_nat r) x []) (j - 3)) /\
      (j < 3 -> 1 <= r ->
       item (nth (Z.to_nat r) y []) j
       = item (nth (Z.to_nat (r - 1)) x []) (9997 + j)) /\
      (j < 3 -> r = 0 -> item (nth (Z.to_nat r) y []) j = 0).
Proof.
  intros Hlen.
  destruct (generateData_from_ravel draw Hlen)
    as (x & y & E & [Lx Sx] & [Ly Sy] & Rx & Ry).
  exists x, y. split; [exact E|]. intros r j Hr Hj.
  change (total_series_length / batch_size) with 10000 in *.
  change batch_size with 5 in *.
  assert (Hy : item (nth (Z.to_nat r) y []) j = item (ravel y) (r * 10000 + j)).
  { symmetry. apply item_ravel; auto; lia. }
  rewrite Hy, Ry. repeat split.
  - intros H3. rewrite echo_item
      by (try exact Hlen; unfold total_series_length, echo_step; lia).
    rewrite <- Rx. unfold echo_step.
    replace (r * 10000 + j - 3) with (r * 10000 + (j - 3)) by lia.
    apply item_ravel; auto; lia.
  - intros H3 H1. rewrite echo_item
      by (try exact Hlen; unfold total_series_length, echo_step; lia).
    rewrite <- Rx. unfold echo_step.
    replace (r * 10000 + j - 3) with ((r - 1) * 10000 + (9997 + j)) by lia.
    apply item_ravel; auto; lia.
  - intros H3 ->. apply echo_item_head; [exact Hlen | unfold echo_step; lia].
Qed.

(** Witness of X2 on the samples of the small environment. *)
Lemma echo_across_rows_witness :
  exists x y,
    generateData_from (Demo.samples (Z.to_nat total_series_length) n_classes 0)
    = inr (x, y) /\
    forall r j, 0 <= r < 5 -> 0 <= j < 10000 ->
      (3 <= j ->
       item (nth (Z.to_nat r) y []) j = item (nth (Z.to_nat r) x []) (j - 3)) /\
      (j < 3 -> 1 <= r ->
       item (nth (Z.to_nat r) y []) j
       = item (nth (Z.to_nat (r - 1)) x []) (9997 + j)) /\
      (j < 3 -> r = 0 -> item (nth (Z.to_nat r) y []) j = 0).
Proof.
  apply (@echo_across_rows
           (Demo.samples (Z.to_nat total_series_length) n_classes 0)).
  rewrite samples_length. reflexivity.
Defined.

(** ** The batches of an epoch tile the data *)

Lemma range_succ (n : nat) :
  range (Z.of_nat (S n)) = range (Z.of_nat n) ++ [Z.of_nat n].
Proof.
  unfold range. rewrite !Nat2Z.id, seq_S, map_app. reflexivity.
Qed.

Lemma firstn_plus A (p q : nat) (xs : list A) :
  firstn (p + q) xs = firstn p xs ++ firstn q (skipn p xs).
Proof.
  revert xs. induction p as [|p IH]; intros [|x xs]; cbn [firstn skipn Nat.add app].
  - now rewrite firstn_nil.
  - reflexivity.
  - now rewrite firstn_nil.
  - now rewrite IH.
Qed.

Lemma slices_tile A (row : list A) (width : Z) (n : nat) :
  0 < width ->
  Z.of_nat n * width <= Z.of_nat (length row) ->
  concat (map (fun b => slice row (b * width) (b * width + width))
              (range (Z.of_nat n)))
  = firstn (Z.to_nat (Z.of_nat n * width)) row.
Proof.
  intros Hw. induction n as [|n IH]; intros Hn.
  - reflexivity.
  - assert (Hp : 0 <= Z.of_nat n * width) by (apply Z.mul_nonneg_nonneg; lia).
    rewrite range_succ, map_app, concat_app, IH by lia.
    cbn [map concat]. rewrite app_nil_r.
    unfold slice. rewrite !slice_bound_in by lia.
    replace (Z.to_nat (Z.of_nat (S n) * width))
      with (Z.to_nat (Z.of_nat n * width) + Z.to_nat width)%nat by lia.
    replace (Z.to_nat (Z.of_nat n * width + width) - Z.to_nat (Z.of_nat n * width))%nat
      with (Z.to_nat width) by lia.
    symmetry. apply firstn_plus.
Qed.

(** X3: laid side by side, the 666 slices the inner loop takes of a row of
    10000 columns are exactly its first 9990 columns, each column once and
    in order; the last 10 are left over. *)
Theorem batches_tile_the_row A (X_data : matrix A) (row : list A) :
  shape2 X_data 5 10000 ->
  In row X_data ->
  concat (map (fun batch =>
                 slice row (batch * truncated_backprop_steps)
                   (batch * truncated_backprop_steps + truncated_backprop_steps))
              (range n_batches))
  = slice row 0 9990 /\
  Z.of_nat (length (slice row 0 9990)) = 9990 /\
  row = slice row 0 9990 ++ slice row 9990 10000.
Proof.
  intros [_ Hc] Hin. rewrite Forall_forall in Hc. specialize (Hc _ Hin).
  assert (Hs : slice row 0 9990 = firstn (Z.to_nat 9990) row).
  { unfold slice. rewrite !slice_bound_in by lia.
    change (Z.to_nat 0) with 0%nat. now rewrite skipn_O, Nat.sub_0_r. }
  split; [|split].
  - rewrite Hs. change n_batches with (Z.of_nat 666).
    rewrite slices_tile by (unfold truncated_backprop_steps; lia).
    f_equal.
  - apply slice_length; lia.
  - rewrite Hs. unfold slice. rewrite !slice_bound_in by lia.
    rewrite (firstn_all2 (n := (Z.to_nat 10000 - Z.to_nat 9990)%nat))
      by (rewrite length_skipn; lia).
    symmetry. apply firstn_skipn.
Qed.

(** Witness of X3 on an all-zero array. *)
Lemma batches_tile_the_row_witness :
  concat (map (fun batch =>
                 slice (repeat 0 (Z.to_nat 10000))
                   (batch * truncated_backprop_steps)
                   (batch * truncated_backprop_steps + truncated_backprop_steps))
              (range n_batches))
  = slice (repeat 0 (Z.to_nat 10000)) 0 9990 /\
  Z.of_nat (length (slice (repeat 0 (Z.to_nat 10000)) 0 9990)) = 9990 /\
  repeat 0 (Z.to_nat 10000)
  = slice (repeat 0 (Z.to_nat 10000)) 0 9990
    ++ slice (repeat 0 (Z.to_nat 10000)) 9990 10000.
Proof.
  apply (@batches_tile_the_row Z (np_zeros 0 5 10000) (repeat 0 (Z.to_nat 10000))).
  - apply np_zeros_shape; lia.
  - left. reflexivity.
Defined.

(** ** Every run, completed or not *)

Section AllRuns.
Variable F : Type.
Variable f0 : F.
Variable W : Type.
Variable env : forall X, call F X -> W -> (exn + X) * W.

Lemma issues_only_trace (P : forall X, call F X -> Prop) A (p : prog F A) :
  issues_only P p -> forall w, Forall (event_in P) (trace env p w).
Proof.
  unfold trace.
  induction p as [A a | A e | A X c0 k IH | A B0 sess body IHb k IHk];
    intros Hp w.
  - constructor.
  - repeat constructor.
  - destruct Hp as [Hc Hk]. rewrite run_Call.
    destruct (env c0 w) as [[e | x] w1]; cbn [snd].
    + repeat constructor. exact Hc.
    + specialize (IH x (Hk x) w1).
      destruct (run env (k x) w1) as [[r w2] t]. cbn [snd] in *.
      constructor; [exact Hc | exact IH].
  - destruct Hp as (Hb & Hx & Hk). rewrite run_WithSession.
    specialize (IHb Hb w). destruct (run env body w) as [[rb w1] t1].
    cbn [snd] in IHb. cbv zeta.
    set (pending := match rb with inl e => Some e | inr _ => None end).
    destruct (env (Session_exit F sess pending) w1) as [[e2 | u] w2].
    + cbn [snd]. apply Forall_app. split; [exact IHb|].
      repeat constructor. apply Hx.
    + destruct rb as [e | b].
      * cbn [snd]. apply Forall_app. split; [exact IHb|].
        repeat constructor. apply Hx.
      * specialize (IHk b (Hk b) w2).
        destruct (run env (k b) w2) as [[r w3] t3]. cbn [snd] in *.
        apply Forall_app. split; [exact IHb|].
        constructor; [apply Hx | exact IHk].
Qed.

Lemma issues_only_bind (P : forall X, call F X -> Prop)
    A B (p : prog F A) (f : A -> prog F B) :
  issues_only P p -> (forall a, issues_only P (f a)) ->
  issues_only P (bind p f).
Proof.
  revert B f.
  induction p as [A a | A e | A X c0 k IH | A B0 sess body IHb k IHk];
    intros B f Hp Hf; cbn [bind issues_only] in *.
  - apply Hf.
  - exact I.
  - destruct Hp as [Hc Hk]. split; [exact Hc|]. intros x. apply IH; auto.
  - destruct Hp as (Hb & Hx & Hk). repeat split; auto.
Qed.

Lemma issues_only_for_each (P : forall X, call F X -> Prop)
    S (items : list Z) (body : Z -> S -> prog F S) :
  (forall i s, In i items -> issues_only P (body i s)) ->
  forall s, issues_only P (for_each items body s).
Proof.
  induction items as [|i rest IH]; intros Hb s.
  - exact I.
  - rewrite for_each_cons. apply issues_only_bind.
    + apply Hb. now left.
    + intros s'. apply IH. intros j s'' Hj. apply Hb. now right.
Qed.

Lemma issues_only_call (P : forall X, call F X -> Prop) X (c0 : call F X) :
  P X c0 -> issues_only P (call_ c0).
Proof. intros H. split; [exact H | intros; exact I]. Qed.

Lemma issues_only_build (P : forall X, call F X -> Prop) (obj : tf) :
  P unit (graph_op F obj) -> issues_only P (build F obj).
Proof. intros H. split; [exact H | intros; exact I]. Qed.

Lemma issues_only_impl (P Q : forall X, call F X -> Prop) A (p : prog F A) :
  (forall X (c0 : call F X), P X c0 -> Q X c0) ->
  issues_only P p -> issues_only Q p.
Proof.
  intros HPQ.
  induction p as [A a | A e | A X c0 k IH | A B0 sess body IHb k IHk];
    cbn [issues_only]; auto.
  - intros [Hc Hk]. split; auto.
  - intros (Hb & Hx & Hk). repeat split; auto.
Qed.

Lemma keep_none A B (f : A -> option B) (xs : list A) :
  Forall (fun x => f x = None) xs -> keep f xs = [].
Proof.
  unfold keep. induction 1 as [|x xs Hx _ IH]; [reflexivity|].
  cbn [flat_map]. now rewrite Hx, IH.
Qed.

Lemma keep_outside (P : forall X, call F X -> Prop) B
    (f : event F -> option B) A (p : prog F A) (w : W) :
  (forall ev, event_in P ev -> f ev = None) ->
  issues_only P p -> keep f (trace env p w) = [].
Proof.
  intros Hf Hp. apply keep_none.
  eapply Forall_impl; [exact Hf|]. now apply issues_only_trace.
Qed.

(** The trace of a sequence is the trace of its first part, followed by the
    trace of the rest when the first part returns. *)
Lemma trace_bind A B (p : prog F A) (f : A -> prog F B) (w : W) :
  trace env (bind p f) w
  = trace env p w
    ++ match run env p w with
       | (inr a, w1, _) => trace env (f a) w1
       | (inl _, _, _) => []
       end.
Proof.
  unfold trace. rewrite run_bind.
  destruct (run env p w) as [[[e | a] w1] t1]; cbn [snd].
  - now rewrite app_nil_r.
  - destruct (run env (f a) w1) as [[r w2] t2]. reflexivity.
Qed.

(** *** What each cell asks *)

Lemma graph_cells_issue (P : forall X, call F X -> Prop) (rest : prog F unit) :
  (forall obj, P unit (graph_op F obj)) ->
  issues_only P rest ->
  issues_only P
    (bind (cell_placeholders F) (fun _ =>
     bind (cell_forward F) (fun _ =>
     bind (cell_reshape F) (fun _ =>
     bind (cell_logits F) (fun _ =>
     bind (cell_loss F) (fun _ => rest)))))).
Proof.
  intros Hg Hrest.
  unfold cell_placeholders, cell_forward, cell_reshape, cell_logits, cell_loss.
  repeat first
    [ exact Hrest
    | exact I
    | apply issues_only_bind; [|intros ?]
    | apply issues_only_build; apply Hg ].
Qed.

Lemma batch_body_issues sess X_data y_data batch vars :
  issues_only (@loop_call F) (batch_body sess X_data y_data batch vars).
Proof.
  destruct vars as [[tl cs] hs]. unfold batch_body.
  apply issues_only_bind; [apply issues_only_call; exact I|].
  intros [[v u] [c' h']]. apply issues_only_bind; [|intros; exact I].
  destruct (batch mod 100 =? 0); [apply issues_only_call|]; exact I.
Qed.

Lemma epoch_body_issues sess epoch tl :
  issues_only (@loop_call F) (epoch_body f0 sess epoch tl).
Proof.
  unfold epoch_body, generateData.
  apply issues_only_bind; [apply issues_only_call; exact I | intros _].
  apply issues_only_bind; [apply issues_only_call; exact I | intros _].
  apply issues_only_bind.
  { apply issues_only_bind; [apply issues_only_call; exact I|].
    intros draw. destruct (generateData_from draw); exact I. }
  intros [X_data y_data].
  apply issues_only_bind.
  { apply issues_only_for_each. intros; apply batch_body_issues. }
  intros [[tl' cs'] hs']. exact I.
Qed.

Lemma epochs_issue sess tl :
  issues_only (@loop_call F) (for_each (range n_epochs) (epoch_body f0 sess) tl).
Proof.
  apply issues_only_for_each. intros; apply epoch_body_issues.
Qed.

Lemma session_body_issues sess :
  issues_only (@training_call F) (session_body f0 sess).
Proof.
  unfold session_body.
  apply issues_only_bind; [apply issues_only_build; exact I | intros init].
  apply issues_only_bind; [apply issues_only_call; exact I | intros _].
  eapply issues_only_impl; [|apply epochs_issue].
  intros X c0. destruct c0; simpl; auto.
Qed.

Lemma cell_training_issues :
  issues_only (@session_call F) (cell_training f0).
Proof.
  unfold cell_training. cbn [issues_only]. split; [exact I|].
  intros sess. split; [|split; intros; exact I].
  eapply issues_only_impl; [|apply session_body_issues].
  intros X c0. destruct c0; simpl; auto.
Qed.

Lemma cell_plot_issues tl : issues_only (@plot_call F) (cell_plot tl).
Proof.
  unfold cell_plot.
  repeat (apply issues_only_bind; [apply issues_only_call; exact I | intros _]).
  exact I.
Qed.
End AllRuns.

(** ** The notebook in every run *)

Section NotebookRuns.
Variable F : Type.
Variable f0 : F.
Variable W : Type.
Variable env : forall X, call F X -> W -> (exn + X) * W.

Lemma trace_bind_cases A B (p : prog F A) (f : A -> prog F B) (w : W) :
  trace env (bind p f) w = trace env p w \/
  exists a w1, trace env (bind p f) w = trace env p w ++ trace env (f a) w1.
Proof.
  rewrite trace_bind. destruct (run env p w) as [[[e | a] w1] t1].
  - left. now rewrite app_nil_r.
  - right. eauto.
Qed.

(** A run of the notebook is a run of the graph-building cells, followed,
    when they all return, by a run of the training cell and the plot. *)
Lemma notebook_trace_split (w : W) :
  exists tg,
    Forall (event_in (@graph_call F)) tg /\
    (trace env (notebook f0) w = tg \/
     exists w1,
       trace env (notebook f0) w
       = tg ++ trace env (bind (cell_training f0) (fun tl : list F => cell_plot tl)) w1).
Proof.
  assert (Hb : forall obj, issues_only (@graph_call F) (build F obj))
    by (intros; apply issues_only_build; exact I).
  assert (H1 : issues_only (@graph_call F) (cell_placeholders F)).
  { unfold cell_placeholders.
    repeat (apply issues_only_bind; [apply Hb | intros ?]). exact I. }
  assert (H2 : issues_only (@graph_call F) (cell_forward F)).
  { unfold cell_forward.
    repeat (apply issues_only_bind; [apply Hb | intros ?]). exact I. }
  assert (H3 : issues_only (@graph_call F) (cell_reshape F)).
  { unfold cell_reshape.
    repeat (apply issues_only_bind; [apply Hb | intros ?]). exact I. }
  assert (H4 : issues_only (@graph_call F) (cell_logits F)).
  { unfold cell_logits.
    repeat (apply issues_only_bind; [apply Hb | intros ?]). exact I. }
  assert (H5 : issues_only (@graph_call F) (cell_loss F)).
  { unfold cell_loss.
    repeat (apply issues_only_bind; [apply Hb | intros ?]). exact I. }
  unfold notebook.
  destruct (trace_bind_cases (cell_placeholders F)
              (fun _ => bind (cell_forward F) (fun _ =>
                        bind (cell_reshape F) (fun _ =>
                        bind (cell_logits F) (fun _ =>
                        bind (cell_loss F) (fun _ =>
                        bind (cell_training f0) (fun tl : list F => cell_plot tl)))))) w)
    as [E | (a1 & w1 & E)]; rewrite E; clear E.
  { eexists. split; [|left; reflexivity]. now apply issues_only_trace. }
  destruct (trace_bind_cases (cell_forward F)
              (fun _ => bind (cell_reshape F) (fun _ =>
                        bind (cell_logits F) (fun _ =>
                        bind (cell_loss F) (fun _ =>
                        bind (cell_training f0) (fun tl : list F => cell_plot tl))))) w1)
    as [E | (a2 & w2 & E)]; rewrite E; clear E.
  { eexists. split; [|left; reflexivity].
    apply Forall_app; split; now apply issues_only_trace. }
  destruct (trace_bind_cases (cell_reshape F)
              (fun _ => bind (cell_logits F) (fun _ =>
                        bind (cell_loss F) (fun _ =>
                        bind (cell_training f0) (fun tl : list F => cell_plot tl)))) w2)
    as [E | (a3 & w3 & E)]; rewrite E; clear E.
  { eexists. split; [|left; reflexivity].
    repeat (apply Forall_app; split); now apply issues_only_trace. }
  destruct (trace_bind_cases (cell_logits F)
              (fun _ => bind (cell_loss F) (fun _ =>
                        bind (cell_training f0) (fun tl : list F => cell_plot tl))) w3)
    as [E | (a4 & w4 & E)]; rewrite E; clear E.
  { eexists. split; [|left; reflexivity].
    repeat (apply Forall_app; split); now apply issues_only_trace. }
  destruct (trace_bind_cases (cell_loss F)
              (fun _ => bind (cell_training f0) (fun tl : list F => cell_plot tl)) w4)
    as [E | (a5 & w5 & E)]; rewrite E; clear E.
  { eexists. split; [|left; reflexivity].
    repeat (apply Forall_app; split); now apply issues_only_trace. }
  exists (trace env (cell_placeholders F) w ++ trace env (cell_forward F) w1
          ++ trace env (cell_reshape F) w2 ++ trace env (cell_logits F) w3
          ++ trace env (cell_loss F) w4).
  split.
  - repeat (apply Forall_app; split); now apply issues_only_trace.
  - right. exists w5. now rewrite <- !app_assoc.
Qed.

(** The training cell: the session does not open, or it opens, the body
    runs and the session is left. *)
Lemma cell_training_trace (w : W) :
  (exists e, outcome env (cell_training f0) w = inl e /\
             trace env (cell_training f0) w = [Ev (tf_Session F) (inl e)]) \/
  exists sess tb pending r,
    Forall (event_in (@training_call F)) tb /\
    (exists w0, tb = trace env (session_body f0 sess) w0) /\
    trace env (cell_training f0) w
    = Ev (tf_Session F) (inr sess) :: tb
      ++ [Ev (Session_exit F sess pending) r].
Proof.
  unfold cell_training, trace, outcome. rewrite run_Call.
  destruct (env (tf_Session F) w) as [[e | sess] w1].
  - left. exists e. split; reflexivity.
  - right. rewrite run_WithSession.
    pose proof (@issues_only_trace F W env _ _ _ (session_body_issues f0 sess) w1)
      as Hb.
    unfold trace in Hb.
    destruct (run env (session_body f0 sess) w1) as [[rb w2] tb] eqn:Erun.
    cbn [snd] in Hb. cbv zeta.
    set (pending := match rb with inl e => Some e | inr _ => None end).
    destruct (env (Session_exit F sess pending) w2) as [[e2 | u] w3].
    + exists sess, tb, pending, (inl e2).
      split; [exact Hb | split; [exists w1; now rewrite Erun | reflexivity]].
    + exists sess, tb, pending, (inr u). split; [exact Hb|].
      split; [exists w1; now rewrite Erun|].
      destruct rb as [e | tl]; reflexivity.
Qed.
Lemma event_in_graph_call (ev : event F) :
  event_in (@graph_call F) ev ->
  opened_by ev = None /\ left_by ev = None /\ plot_of ev = None /\
  run_of ev = None /\ is_run ev = false.
Proof. destruct ev as [X c0 r | e]; [destruct c0|]; simpl; intros H; tauto. Qed.

Lemma event_in_training_call (ev : event F) :
  event_in (@training_call F) ev ->
  opened_by ev = None /\ left_by ev = None /\ plot_of ev = None.
Proof. destruct ev as [X c0 r | e]; [destruct c0|]; simpl; intros H; tauto. Qed.

Lemma event_in_plot_call (ev : event F) :
  event_in (@plot_call F) ev ->
  opened_by ev = None /\ left_by ev = None /\ run_of ev = None /\
  built_by ev = None.
Proof. destruct ev as [X c0 r | e]; [destruct c0|]; simpl; intros H; tauto. Qed.

Lemma event_in_loop_call (ev : event F) :
  event_in (@loop_call F) ev -> built_by ev = None.
Proof. destruct ev as [X c0 r | e]; [destruct c0|]; simpl; intros H; tauto. Qed.

Lemma keep_Forall A B (f : A -> option B) (P : A -> Prop) (xs : list A) :
  Forall P xs -> (forall x, P x -> f x = None) -> keep f xs = [].
Proof.
  intros H Hf. apply keep_none. eapply Forall_impl; [exact Hf | exact H].
Qed.

(** X4: in every run, finished or cut short by an exception, a session
    that was opened is left again, and at most one session is opened. *)
Theorem sessions_are_left (w : W) :
  keep (@opened_by F) (trace env (notebook f0) w)
  = keep (@left_by F) (trace env (notebook f0) w) /\
  (length (keep (@opened_by F) (trace env (notebook f0) w)) <= 1)%nat.
Proof.
  destruct (notebook_trace_split w) as (tg & Hg & [E | (w1 & E)]); rewrite E.
  - rewrite !(keep_Forall _ Hg) by (intros ev H; now apply event_in_graph_call).
    split; [reflexivity | simpl; lia].
  - rewrite !keep_app.
    rewrite !(keep_Forall _ Hg) by (intros ev H; now apply event_in_graph_call).
    cbn [app]. rewrite trace_bind, !keep_app.
    assert (Hp : forall f : event F -> option session,
               (forall ev, event_in (@plot_call F) ev -> f ev = None) ->
               keep f match run env (cell_training f0) w1 with
                      | (inr a, w2, _) => trace env (cell_plot a) w2
                      | (inl _, _, _) => []
                      end = []).
    { intros f Hf.
      destruct (run env (cell_training f0) w1) as [[[e | tl] w2] t]; [reflexivity|].
      eapply keep_Forall; [|exact Hf].
      apply issues_only_trace, cell_plot_issues. }
    rewrite !Hp by (intros ev H; now apply event_in_plot_call).
    rewrite !app_nil_r.
    destruct (cell_training_trace w1)
      as [(e & _ & Et) | (sess & tb & pending & r & Hb & _ & Et)]; rewrite Et.
    + split; [reflexivity | simpl; lia].
    + change (Ev (tf_Session F) (inr sess) :: tb ++ [Ev (Session_exit F sess pending) r])
        with ([Ev (tf_Session F) (inr sess)] ++ tb ++ [Ev (Session_exit F sess pending) r]).
      rewrite !keep_app.
      rewrite !(keep_Forall _ Hb) by (intros ev H; now apply event_in_training_call).
      split; [reflexivity | simpl; lia].
Qed.
Lemma run_call_bind X B (c0 : call F X) (f : X -> prog F B) (w : W) :
  run env (bind (call_ c0) f) w
  = match env c0 w with
    | (inl e, w1) => (inl e, w1, [Ev c0 (inl e)])
    | (inr x, w1) =>
        let '(r, w2, t) := run env (f x) w1 in (r, w2, Ev c0 (inr x) :: t)
    end.
Proof.
  rewrite run_bind. unfold call_. rewrite run_Call.
  destruct (env c0 w) as [[e | x] w1]; [reflexivity|]. cbn [run].
  destruct (run env (f x) w1) as [[r w2] t]. reflexivity.
Qed.

Lemma plotted_cell_plot (tl : list F) (w : W) :
  plotted (trace env (cell_plot tl) w) = [] \/
  plotted (trace env (cell_plot tl) w) = [tl].
Proof.
  unfold cell_plot, trace. rewrite run_call_bind.
  destruct (env (plt_figure F (10, 8)) w) as [[e | u] w1]; [left; reflexivity|].
  rewrite run_call_bind.
  destruct (env (plt_plot tl) w1) as [[e | u1] w2]; [right; reflexivity|].
  rewrite run_call_bind.
  destruct (env _ w2) as [[e | u2] w3]; [right; reflexivity|].
  rewrite run_call_bind.
  destruct (env _ w3) as [[e | u3] w4]; right; reflexivity.
Qed.

Lemma event_in_session_call (ev : event F) :
  event_in (@session_call F) ev -> plot_of ev = None.
Proof. destruct ev as [X c0 r | e]; [destruct c0|]; simpl; intros H; tauto. Qed.

Lemma losses_of_epoch_runs (logs : list (epoch_log F)) :
  Forall (@log_ok F) logs ->
  map (@loss_of F) (concat (map (epoch_runs f0) logs))
  = concat (map (@losses_of_log F) logs).
Proof.
  intros Hok. rewrite concat_map, map_map. f_equal.
  apply map_ext_Forall. eapply Forall_impl; [|exact Hok].
  intros lg [_ Hl]. unfold epoch_runs, losses_of_log.
  now rewrite batch_runs_losses.
Qed.

Lemma losses_count (logs : list (epoch_log F)) :
  length logs = length (range n_epochs) ->
  Forall (@log_ok F) logs ->
  Z.of_nat (length (concat (map (@losses_of_log F) logs))) = 13320.
Proof.
  intros Hlen Hok.
  rewrite (@length_concat_uniform _ (Z.to_nat n_batches)).
  - rewrite length_map, Hlen, range_length. reflexivity.
  - apply Forall_map. eapply Forall_impl; [|exact Hok].
    intros lg Hlg. now apply losses_of_log_length.
Qed.

(** X5: in every run, finished or not, [plt.plot] is called at most once,
    and when it is called it is given the whole curve: the 13320 losses of
    all the session runs of the trace, in order.  No run plots a partial
    curve. *)
Theorem no_partial_plot (w : W) :
  plotted (trace env (notebook f0) w) = [] \/
  exists ls,
    plotted (trace env (notebook f0) w) = [ls] /\
    ls = map (@loss_of F) (runs_of (trace env (notebook f0) w)) /\
    Z.of_nat (length ls) = 13320.
Proof.
  unfold plotted, runs_of.
  destruct (notebook_trace_split w) as (tg & Hg & [E | (w1 & E)]); rewrite E.
  { left. eapply keep_Forall; [exact Hg|].
    intros ev H; now apply event_in_graph_call. }
  rewrite !keep_app.
  rewrite !(keep_Forall _ Hg) by (intros ev H; now apply event_in_graph_call).
  cbn [app]. rewrite trace_bind, !keep_app.
  assert (Hs : keep (@plot_of F) (trace env (cell_training f0) w1) = []).
  { eapply keep_Forall; [apply issues_only_trace, cell_training_issues|].
    intros ev H; now apply event_in_session_call. }
  rewrite Hs. cbn [app].
  change (trace env (cell_training f0) w1)
    with (snd (run env (cell_training f0) w1)).
  destruct (run env (cell_training f0) w1) as [[[e | tl] w2] tT] eqn:ER;
    [left; reflexivity|].
  apply run_cell_training_completed in ER
    as (sess & logs & Hlen & Hok & Hd & -> & ->).
  destruct (plotted_cell_plot (concat (map (@losses_of_log F) logs)) w2)
    as [Ep | Ep]; unfold plotted in Ep; rewrite Ep; [left; reflexivity|].
  right. eexists. split; [reflexivity|]. split.
  - cbn [snd]. rewrite !keep_app.
    fold (runs_of (epochs_events f0 sess (range n_epochs) logs)).
    rewrite runs_of_epochs by exact Hlen.
    rewrite (keep_Forall (@run_of F)
               (@issues_only_trace F W env _ _ _ (cell_plot_issues _) w2))
      by (intros ev H; now apply event_in_plot_call).
    cbn [keep flat_map run_of built app].
    rewrite !app_nil_r. symmetry. now apply losses_of_epoch_runs.
  - now apply losses_count.
Qed.
(** *** The calls as the cells write them *)

Lemma issues_only_bind_build (P : forall X, call F X -> Prop) B
    (obj : tf) (f : tf -> prog F B) :
  P unit (graph_op F obj) -> issues_only P (f obj) ->
  issues_only P (bind (build F obj) f).
Proof. intros Hc Hf. cbn [build bind issues_only]. split; auto. Qed.

Ltac known_object :=
  cbn [as_written]; unfold graph_objects;
  repeat (first [left; reflexivity | right]).

Lemma batch_body_as_written sess X_data y_data batch vars :
  0 <= batch < n_batches ->
  issues_only (@as_written F) (batch_body sess X_data y_data batch vars).
Proof.
  intros Hb. destruct vars as [[tl cs] hs]. unfold batch_body.
  apply issues_only_bind; [apply issues_only_call; split; reflexivity|].
  intros [[v u] [c' h']]. apply issues_only_bind; [|intros; exact I].
  destruct (Z.eqb_spec (batch mod 100) 0) as [E | _]; [|exact I].
  apply issues_only_call. right. right. exists batch, v. auto.
Qed.

Lemma epoch_body_as_written sess epoch tl :
  0 <= epoch < n_epochs ->
  issues_only (@as_written F) (epoch_body f0 sess epoch tl).
Proof.
  intros He. unfold epoch_body, generateData.
  apply issues_only_bind; [apply issues_only_call; now left | intros _].
  apply issues_only_bind;
    [apply issues_only_call; right; left; exists epoch; auto | intros _].
  apply issues_only_bind.
  { apply issues_only_bind; [apply issues_only_call; split; reflexivity|].
    intros draw. destruct (generateData_from draw); exact I. }
  intros [X_data y_data].
  apply issues_only_bind.
  { apply issues_only_for_each. intros b vars Hb.
    apply batch_body_as_written. now apply In_range. }
  intros [[tl' cs'] hs']. exact I.
Qed.

Lemma notebook_as_written : issues_only (@as_written F) (notebook f0).
Proof.
  unfold notebook, cell_placeholders, cell_forward, cell_reshape,
    cell_logits, cell_loss.
  repeat (apply issues_only_bind;
          [ repeat (apply issues_only_bind_build; [known_object|]); exact I
          | intros _ ]).
  apply issues_only_bind; [|intros tl; unfold cell_plot;
    repeat (apply issues_only_bind; [apply issues_only_call; exact I | intros _]);
    exact I].
  unfold cell_training. cbn [issues_only]. split; [exact I|].
  intros sess. split; [|split; intros; exact I].
  unfold session_body.
  apply issues_only_bind_build; [known_object|].
  apply issues_only_bind; [apply issues_only_call; reflexivity | intros _].
  apply issues_only_for_each. intros e tl He.
  apply epoch_body_as_written. now apply In_range.
Qed.

(** X6: in every run, whatever the libraries answer and wherever the run
    ends, every call is one the cells write: the generator is only asked
    for 50000 samples of [range(2)], a training run always fetches loss,
    optimizer and final state and feeds exactly the four placeholders, only
    the initializer is run beside them, and only the notebook's own graph
    objects are built. *)
Theorem calls_as_written (w : W) :
  Forall (event_in (@as_written F)) (trace env (notebook f0) w).
Proof. apply issues_only_trace, notebook_as_written. Qed.

Lemma keep_Forall_some A B (f : A -> option B) (P : A -> Prop)
    (Q : B -> Prop) (xs : list A) :
  Forall P xs -> (forall x y, P x -> f x = Some y -> Q y) ->
  Forall Q (keep f xs).
Proof.
  intros H Hf. unfold keep. induction H as [|x xs Hx _ IH]; [constructor|].
  cbn [flat_map]. destruct (f x) as [y|] eqn:E; [|exact IH].
  constructor; [eapply Hf; eauto | exact IH].
Qed.

(** X7: in every run, finished or not, a step line is only ever printed for
    a batch index below 666 that is a multiple of 100. *)
Theorem step_lines_on_the_hundred (w : W) :
  Forall (@step_on_the_hundred F) (steps_of (trace env (notebook f0) w)).
Proof.
  unfold steps_of.
  eapply keep_Forall_some;
    [apply issues_only_trace, notebook_as_written|].
  intros [X c0 r | e] s Hev Hs; [|discriminate].
  destruct c0; try discriminate.
  - destruct r as [e | [[v u] st]]; inversion Hs; subst. exact I.
  - cbn [step_of] in Hs. unfold step_line in Hs.
    destruct args as [|[s1 | | ] [|[ | b | ] [|[s2 | | ] [|[ | | v] [|? ?]]]]];
      try discriminate.
    destruct (String.eqb s1 "Step: " && String.eqb s2 "Loss: ")%bool eqn:Es;
      [|discriminate].
    inversion Hs; subst. clear Hs.
    cbn [event_in as_written] in Hev.
    destruct Hev as [Hev | [(ep & _ & Hev) | (b' & v' & Hb & Hm & Hev)]];
      try discriminate.
    inversion Hev; subst. split; assumption.
Qed.

(** *** The graph is complete before training starts *)

Lemma from_first_run_clean (t1 t2 : list (event F)) :
  forallb (fun ev => negb (is_run ev)) t1 = true ->
  from_first_run (t1 ++ t2) = from_first_run t2.
Proof.
  induction t1 as [|ev t1 IH]; [reflexivity|]. cbn [forallb app from_first_run].
  intros H. apply andb_true_iff in H as [Hev H].
  destruct (is_run ev); [discriminate|]. now apply IH.
Qed.

Lemma keep_from_first_run B (f : event F -> option B) (tr : list (event F)) :
  keep f tr = [] -> keep f (from_first_run tr) = [].
Proof.
  induction tr as [|ev tr IH]; [reflexivity|]. cbn [from_first_run].
  intros H. destruct (is_run ev); [exact H|]. apply IH.
  unfold keep in *. cbn [flat_map] in H.
  destruct (f ev); [discriminate | exact H].
Qed.

Lemma session_body_trace sess (w : W) :
  exists pre lp,
    trace env (session_body f0 sess) w = pre ++ lp /\
    forallb (fun ev => negb (is_run ev)) pre = true /\
    Forall (event_in (@loop_call F)) lp.
Proof.
  unfold session_body.
  destruct (trace_bind_cases (build F tf_global_variables_initializer)
              (fun init => bind (call_ (sess_run_op F sess init)) (fun _ =>
                 for_each (range n_epochs) (epoch_body f0 sess) [])) w)
    as [E | (init & w1 & E)]; rewrite E; clear E.
  { exists (trace env (build F tf_global_variables_initializer) w), [].
    rewrite app_nil_r. repeat split; [|constructor].
    unfold trace, build. rewrite run_Call.
    destruct (env _ w) as [[e | u] w1]; reflexivity. }
  destruct (trace_bind_cases (call_ (sess_run_op F sess init))
              (fun _ => for_each (range n_epochs) (epoch_body f0 sess) []) w1)
    as [E | (u & w2 & E)]; rewrite E; clear E.
  { eexists _, []. rewrite app_nil_r. repeat split; [|constructor].
    unfold trace, build, call_. rewrite !run_Call.
    destruct (env _ w) as [[e | u] w0]; destruct (env _ w1) as [[e1 | u1] w3];
      reflexivity. }
  eexists _, _. rewrite app_assoc. split; [reflexivity|]. split.
  - unfold trace, build, call_. rewrite !run_Call.
    destruct (env _ w) as [[e | u0] w0]; destruct (env _ w1) as [[e1 | u1] w3];
      reflexivity.
  - apply issues_only_trace, epochs_issue.
Qed.

(** X8: in every run, nothing is added to the graph from the first session
    run of the training loop on: every graph-building call comes before it. *)
Theorem graph_complete_before_training (w : W) :
  keep (@built_by F) (from_first_run (trace env (notebook f0) w)) = [].
Proof.
  destruct (notebook_trace_split w) as (tg & Hg & [E | (w1 & E)]); rewrite E.
  { assert (Hc : forallb (fun ev => negb (is_run ev)) tg = true).
    { apply forallb_forall. rewrite Forall_forall in Hg. intros ev Hin.
      destruct (event_in_graph_call ev (Hg ev Hin)) as (_ & _ & _ & _ & ->).
      reflexivity. }
    rewrite <- (app_nil_r tg), from_first_run_clean by exact Hc. reflexivity. }
  assert (Hc : forallb (fun ev => negb (is_run ev)) tg = true).
  { apply forallb_forall. rewrite Forall_forall in Hg. intros ev Hin.
    destruct (event_in_graph_call ev (Hg ev Hin)) as (_ & _ & _ & _ & ->).
    reflexivity. }
  rewrite from_first_run_clean by exact Hc.
  rewrite trace_bind.
  assert (Hp : keep (@built_by F)
                 match run env (cell_training f0) w1 with
                 | (inr a, w2, _) => trace env (cell_plot a) w2
                 | (inl _, _, _) => []
                 end = []).
  { destruct (run env (cell_training f0) w1) as [[[e | tl] w2] t]; [reflexivity|].
    eapply keep_Forall; [apply issues_only_trace, cell_plot_issues|].
    intros ev H; now apply event_in_plot_call. }
  destruct (cell_training_trace w1)
    as [(e & _ & Et) | (sess & tb & pending & r & _ & (w0 & Etb) & Et)];
    rewrite Et.
  - cbn [app from_first_run is_run]. apply keep_from_first_run. exact Hp.
  - destruct (session_body_trace sess w0) as (pre & lp & Epre & Hpre & Hlp).
    rewrite Etb, Epre.
    match goal with
    | |- context [(?a :: (pre ++ lp) ++ ?x) ++ ?rest] =>
        replace ((a :: (pre ++ lp) ++ x) ++ rest)
          with (([a] ++ pre) ++ lp ++ x ++ rest)
          by (cbn [app]; now rewrite <- !app_assoc)
    end.
    rewrite from_first_run_clean
      by (cbn [app forallb is_run negb andb]; exact Hpre).
    apply keep_from_first_run. rewrite !keep_app, Hp.
    rewrite (keep_Forall _ Hlp) by (intros ev H; now apply event_in_loop_call).
    reflexivity.
Qed.
End NotebookRuns.

Section Completion.
Variable F : Type.
Variable f0 : F.
Variable W : Type.
Variable env : forall X, call F X -> W -> (exn + X) * W.

(** X9: when no library call raises and the generator returns the samples
    it is asked for, the notebook runs to its end from every state of the
    environment: in particular [reshape] never fails, because 50000 is a
    multiple of [batch_size]. *)
Theorem notebook_runs_to_completion (w : W) :
  never_raises env -> honest_choice env ->
  exists w1 tr, run env (notebook f0) w = (inr tt, w1, tr).
Proof.
  intros Hn Hh. destruct (total_notebook f0 Hn Hh w) as ([] & w1 & tr & E).
  eauto.
Qed.
End Completion.

(** Witness of X9 in the small environment. *)
Lemma notebook_runs_to_completion_witness :
  exists w1 tr, run Demo.env (notebook 0) 0 = (inr tt, w1, tr).
Proof.
  apply (@notebook_runs_to_completion Z 0 Z Demo.env 0).
  - exact demo_never_raises.
  - exact demo_honest_choice.
Defined.

(** ** What is fed, batch by batch *)

Section FedBatches.
Variable F : Type.
Variable f0 : F.
Variable W : Type.
Variable env : forall X, call F X -> W -> (exn + X) * W.

Lemma batch_runs_fed X_data y_data batches :
  forall (st : lstm_state F) rs,
  length rs = length batches ->
  map (fun r => (fed_to X_placeholder (fed_dict r),
                 fed_to y_placeholder (fed_dict r)))
      (batch_runs X_data y_data batches st rs)
  = map (fun b =>
           (Some (IntArr F (col_slice X_data (b * 15) (b * 15 + 15))),
            Some (IntArr F (col_slice y_data (b * 15) (b * 15 + 15)))))
        batches.
Proof.
  induction batches as [|b bs IH]; intros st [|r rs] Hlen; try discriminate;
    [reflexivity|].
  cbn [batch_runs map]. f_equal. apply IH. simpl in Hlen. lia.
Qed.

Lemma logs_data (logs : list (epoch_log F)) :
  Forall (@log_ok F) logs ->
  Forall2 (fun d xy => generateData_from d = inr xy)
          (map (@drawn F) logs)
          (map (fun lg => (X_of lg, y_of lg)) logs).
Proof.
  induction 1 as [|lg logs [Hg _] _ IH]; cbn [map]; constructor; assumption.
Qed.

(** X10: in a run that completes, each of the 20 epochs makes its own
    arrays from its own draw, and the batches fed to [X_placeholder] and
    [y_placeholder] are, epoch after epoch and in the order of the batch
    index, the column slices [15 b, 15 b + 15) of that epoch's [x] and [y]:
    no batch is fed twice, none out of order, none from another epoch. *)
Theorem fed_batches_of_completed_run (w : W) :
  completes env (notebook f0) w = true ->
  exists data : list (matrix Z * matrix Z),
    Forall2 (fun d xy => generateData_from d = inr xy)
            (draws_of (trace env (notebook f0) w)) data /\
    Z.of_nat (length data) = 20 /\
    map (fun r => (fed_to X_placeholder (fed_dict r),
                   fed_to y_placeholder (fed_dict r)))
        (runs_of (trace env (notebook f0) w))
    = concat (map (fun xy =>
        map (fun b =>
               (Some (IntArr F (col_slice (fst xy) (b * 15) (b * 15 + 15))),
                Some (IntArr F (col_slice (snd xy) (b * 15) (b * 15 + 15)))))
            (range n_batches)) data).
Proof.
  intros H.
  apply completed_notebook_trace in H as (sess & logs & Hlen & Hok & _ & ->).
  exists (map (fun lg => (X_of lg, y_of lg)) logs).
  rewrite draws_of_completed, runs_of_completed by exact Hlen.
  split; [now apply logs_data|]. split.
  - rewrite length_map, Hlen, range_length. reflexivity.
  - rewrite concat_map, !map_map. f_equal.
    apply map_ext_Forall. eapply Forall_impl; [|exact Hok].
    intros lg [_ Hl]. unfold epoch_runs. cbn [fst snd].
    now apply batch_runs_fed.
Qed.
End FedBatches.

(** Witness of X10 in the small environment. *)
Lemma fed_batches_of_completed_run_witness :
  exists data : list (matrix Z * matrix Z),
    Forall2 (fun d xy => generateData_from d = inr xy)
            (draws_of (trace Demo.env (notebook 0) 0)) data /\
    Z.of_nat (length data) = 20 /\
    map (fun r => (fed_to X_placeholder (fed_dict r),
                   fed_to y_placeholder (fed_dict r)))
        (runs_of (trace Demo.env (notebook 0) 0))
    = concat (map (fun xy =>
        map (fun b =>
               (Some (IntArr Z (col_slice (fst xy) (b * 15) (b * 15 + 15))),
                Some (IntArr Z (col_slice (snd xy) (b * 15) (b * 15 + 15)))))
            (range n_batches)) data).
Proof.
  apply (@fed_batches_of_completed_run Z 0 Z Demo.env 0). apply demo_completes.
Defined.

(** ** Evaluating the loss without its feeds *)

Section MissingFeeds.
Variable F : Type.
Variable f0 : F.
Variables fadd fmul : F -> F -> F.
Variable of_int : Z -> F.
Variable lib_dynamic_rnn :
  Z -> tensor F -> tensor F -> tensor F ->
  option (tensor F * (tensor F * tensor F)).
Variable lib_xent : Z -> list F -> F.
Variable lib_mean : list F -> F.

Local Abbreviation eval' := (eval f0 fadd fmul of_int lib_dynamic_rnn lib_xent lib_mean).

Lemma loss_needs_outputs (b : bindings F) :
  eval' b rnn = None -> eval' b loss = None.
Proof.
  intros H. unfold loss, l, temp, outputs. cbn [eval]. rewrite H.
  destruct (eval' b y_temp) as [[ | | | ]|]; reflexivity.
Qed.

(** X11: the loss has no value unless all four placeholders are fed: with
    any one of them missing from the feeds, or with the input placeholder
    fed a batch that is not of shape (5, 15), evaluating the loss fails. *)
Theorem loss_needs_every_feed (b : bindings F) :
  fed b 0%nat = None \/ fed b 1%nat = None \/
  fed b 2%nat = None \/ fed b 3%nat = None \/
  (exists t, fed b 0%nat = Some (IntT F t) /\ dims t <> [5; 15]) ->
  eval' b loss = None.
Proof.
  intros [H | [H | [H | [H | (t & H & Hd)]]]].
  - apply loss_needs_outputs. unfold rnn, lstm_cell, X_placeholder.
    cbn [eval]. now rewrite H.
  - unfold loss, y_temp, y_placeholder. cbn [eval]. now rewrite H.
  - apply loss_needs_outputs.
    unfold rnn, lstm_cell, init_state, cell_state. cbn [eval]. rewrite H.
    match goal with
    | |- match ?x with _ => _ end = None => destruct x as [[ | | | ]|]
    end; reflexivity.
  - apply loss_needs_outputs.
    unfold rnn, lstm_cell, init_state, hidden_state. cbn [eval]. rewrite H.
    match goal with
    | |- match ?x with _ => _ end = None => destruct x as [[ | | | ]|]
    end; try reflexivity.
    match goal with
    | |- match match ?x with _ => _ end with _ => _ end = None =>
        destruct x as [[ | | | ]|]
    end; reflexivity.
  - apply loss_needs_outputs. unfold rnn, lstm_cell, X_placeholder.
    cbn [eval]. rewrite H. cbn [feed_value].
    destruct (is_compatible_with [Some batch_size; Some truncated_backprop_steps]
                (dims t)) eqn:E; [|reflexivity].
    exfalso. apply Hd.
    apply (accepts_fixed 0 float32 batch_size truncated_backprop_steps). exact E.
Qed.
End MissingFeeds.

(** Witness of X11: nothing is fed at all. *)
Lemma loss_needs_every_feed_witness :
  eval 0 Z.add Z.mul (fun z => z) Demo.dynamic_rnn Demo.xent Demo.mean
       (Bindings (fun _ => None) (variable_value Demo.fed_values)) loss
  = None.
Proof.
  apply (@loss_needs_every_feed Z 0 Z.add Z.mul (fun z => z)
           Demo.dynamic_rnn Demo.xent Demo.mean
           (Bindings (fun _ => None) (variable_value Demo.fed_values))).
  left. reflexivity.
Defined.

(** ** Exceptions in the notebook *)

Section NotebookExceptions.
Variable F : Type.
Variable f0 : F.
Variable W : Type.
Variable env : forall X, call F X -> W -> (exn + X) * W.

Lemma run_bind_failed A B (p : prog F A) (f : A -> prog F B) w e w1 tr :
  run env (bind p f) w = (inl e, w1, tr) ->
  run env p w = (inl e, w1, tr) \/
  exists a w' t1 t2,
    run env p w = (inr a, w', t1) /\
    run env (f a) w' = (inl e, w1, t2) /\
    tr = t1 ++ t2.
Proof.
  rewrite run_bind.
  destruct (run env p w) as [[[e0 | a] w'] t1]; [intros H; left; inversion H; reflexivity|].
  destruct (run env (f a) w') as [[r w2] t2] eqn:E.
  intros H. inversion H; subst. right. exists a, w', t1, t2. auto.
Qed.

Lemma completed_clean A (p : prog F A) w a w1 tr :
  run env p w = (inr a, w1, tr) -> last_raised tr = None.
Proof.
  intros H. pose proof (run_last_raised env p w) as Hl.
  unfold outcome, trace in Hl. rewrite H in Hl. exact Hl.
Qed.

(** A program without a [with] statement stops at the event that raises. *)
Lemma flat_failure (P : forall X, call F X -> Prop) A (p : prog F A) :
  (forall sess pending, ~ P unit (Session_exit F sess pending)) ->
  issues_only P p ->
  forall w e w1 tr,
    run env p w = (inl e, w1, tr) ->
    exists pre ev,
      tr = pre ++ [ev] /\ last_raised pre = None /\ raised_by ev = Some e.
Proof.
  intros Hx.
  induction p as [A a | A e0 | A X c0 k IH | A B0 sess body IHb k IHk];
    intros Hp w e w1 tr H.
  - discriminate.
  - cbn [run] in H. inversion H; subst. exists [], (Raised F e). auto.
  - destruct Hp as [_ Hk]. rewrite run_Call in H.
    destruct (env c0 w) as [[e1 | x] w2].
    + inversion H; subst. exists [], (Ev c0 (inl e)). auto.
    + destruct (run env (k x) w2) as [[r w3] t] eqn:E.
      inversion H; subst.
      destruct (IH x (Hk x) _ _ _ _ E) as (pre & ev & -> & Hc & Hr).
      exists (Ev c0 (inr x) :: pre), ev. repeat split; auto.
      cbn [last_raised raised_by]. now rewrite Hc.
  - destruct Hp as (_ & Hs & _). exfalso. exact (Hx sess None (Hs None)).
Qed.

Lemma flat_stops (P : forall X, call F X -> Prop) A (p : prog F A) w e w1 tr :
  (forall sess pending, ~ P unit (Session_exit F sess pending)) ->
  issues_only P p ->
  run env p w = (inl e, w1, tr) -> stops_with tr e.
Proof.
  intros Hx Hp H.
  pose proof (@flat_failure) as FF.
  destruct (FF P A p Hx Hp w e w1 tr H) as (pre & ev & -> & Hc & Hr).
  exists pre, ev, e. auto.
Qed.

Lemma stops_with_prepend (t1 tr : list (event F)) (e : exn) :
  last_raised t1 = None -> stops_with tr e -> stops_with (t1 ++ tr) e.
Proof.
  intros H1 (pre & ev & e0 & Hc & Hr & Hform).
  exists (t1 ++ pre), ev, e0. split; [|split; [exact Hr|]].
  - rewrite last_raised_app, Hc. exact H1.
  - destruct Hform as [[-> ->] | (sess & r & -> & ->)].
    + left. now rewrite app_assoc.
    + right. exists sess, r. now rewrite app_assoc.
Qed.

Lemma cell_training_stops w e w1 tr :
  run env (cell_training f0) w = (inl e, w1, tr) -> stops_with tr e.
Proof.
  unfold cell_training. rewrite run_Call.
  destruct (env (tf_Session F) w) as [[e0 | sess] w2].
  { intros H. inversion H; subst.
    exists [], (Ev (tf_Session F) (inl e)), e. auto. }
  rewrite run_WithSession.
  destruct (run env (session_body f0 sess) w2) as [[rb w3] tb] eqn:Eb.
  destruct rb as [e0 | tl]; cbv beta iota zeta.
  - (* the body raised: the session is left with the exception pending *)
    pose proof (@flat_failure) as FF.
    destruct (FF (@training_call F) _ (session_body f0 sess)
                (fun _ _ Hf => Hf) (session_body_issues f0 sess) _ _ _ _ Eb)
      as (pre & ev & -> & Hc & Hr).
    destruct (env (Session_exit F sess (Some e0)) w3) as [[e2 | u] w4];
      intros H; inversion H; subst.
    + exists (Ev (tf_Session F) (inr sess) :: pre), ev, e0.
      split; [cbn [last_raised raised_by]; now rewrite Hc|].
      split; [exact Hr|]. right. exists sess, (inl e).
      split; [|reflexivity]. cbn [app]. now rewrite <- app_assoc.
    + exists (Ev (tf_Session F) (inr sess) :: pre), ev, e.
      split; [cbn [last_raised raised_by]; now rewrite Hc|].
      split; [exact Hr|]. right. exists sess, (inr u).
      split; [|reflexivity]. cbn [app]. now rewrite <- app_assoc.
  - (* the body returned: only leaving the session can still raise *)
    pose proof (completed_clean _ _ Eb) as Hc.
    destruct (env (Session_exit F sess None) w3) as [[e2 | u] w4].
    + intros H. inversion H; subst.
      exists (Ev (tf_Session F) (inr sess) :: tb),
             (Ev (Session_exit F sess None) (inl e)), e.
      split; [cbn [last_raised raised_by]; now rewrite Hc|].
      split; [reflexivity|]. left. auto.
    + cbn [run]. discriminate.
Qed.

Ltac graph_cell_stops H :=
  let FS := fresh in
  pose proof (@flat_stops) as FS;
  apply (FS (@graph_call F) _ _ _ _ _ _ (fun _ _ Hf => Hf)) in H;
  [exact H|];
  repeat first
    [ exact I
    | apply issues_only_bind; [|intros ?]
    | apply issues_only_build; exact I ].

(** C7, amended: the notebook has no handler of its own.  A run ends in an
    error exactly when something raises; the first event that raises is the
    last thing the notebook does, but for the [with] statement leaving the
    session when the exception was raised inside it; and the error that
    reaches the top is that exception, unchanged, unless leaving the session
    itself raises, in which case it is the exception of leaving. *)
Theorem exceptions_reach_top (w : W) :
  match outcome env (notebook f0) w with
  | inr _ => last_raised (trace env (notebook f0) w) = None
  | inl e_top => stops_with (trace env (notebook f0) w) e_top
  end.
Proof.
  unfold outcome, trace.
  destruct (run env (notebook f0) w) as [[[e | u] w1] tr] eqn:E; cbn [fst snd].
  2: { eapply completed_clean; exact E. }
  unfold notebook in E.
  apply run_bind_failed in E as [E | (a1 & w2 & t1 & r1 & E1 & E & ->)].
  { unfold cell_placeholders in E. graph_cell_stops E. }
  apply stops_with_prepend; [eapply completed_clean; exact E1|].
  apply run_bind_failed in E as [E | (a2 & w3 & t2 & r2 & E2 & E & ->)].
  { unfold cell_forward in E. graph_cell_stops E. }
  apply stops_with_prepend; [eapply completed_clean; exact E2|].
  apply run_bind_failed in E as [E | (a3 & w4 & t3 & r3 & E3 & E & ->)].
  { unfold cell_reshape in E. graph_cell_stops E. }
  apply stops_with_prepend; [eapply completed_clean; exact E3|].
  apply run_bind_failed in E as [E | (a4 & w5 & t4 & r4 & E4 & E & ->)].
  { unfold cell_logits in E. graph_cell_stops E. }
  apply stops_with_prepend; [eapply completed_clean; exact E4|].
  apply run_bind_failed in E as [E | (a5 & w6 & t5 & r5 & E5 & E & ->)].
  { unfold cell_loss in E. graph_cell_stops E. }
  apply stops_with_prepend; [eapply completed_clean; exact E5|].
  apply run_bind_failed in E as [E | (tl & w7 & t6 & r6 & E6 & E & ->)].
  { now apply cell_training_stops in E. }
  apply stops_with_prepend; [eapply completed_clean; exact E6|].
  pose proof (@flat_stops) as FS.
  apply (FS (@plot_call F) _ _ _ _ _ _ (fun _ _ Hf => Hf)) in E;
    [exact E | apply cell_plot_issues].
Qed.
End NotebookExceptions.

(** The form [stops_with] is not that of every program: with one [with]
    statement inside another, two sessions are left after the event that
    raised. *)
Lemma stops_with_not_nested :
  ~ stops_with
      (trace Demo.env
         (WithSession 1
            (WithSession 2 (Raise Z unit "ValueError"%string)
               (fun u : unit => Ret Z u))
            (fun u : unit => Ret Z u)) 0)
      "ValueError"%string.
Proof.
  cbv [trace run snd Demo.env app].
  intros (pre & ev & e & _ & Hr & [[Htr _] | (sess & r & Htr & _)]).
  - destruct pre as [|a [|b [|c pre]]]; cbn [app] in Htr.
    + discriminate Htr.
    + discriminate Htr.
    + injection Htr as _ _ He. subst ev. discriminate Hr.
    + injection Htr as _ _ _ He. destruct pre; discriminate He.
  - destruct pre as [|a [|b pre]]; cbn [app] in Htr.
    + discriminate Htr.
    + injection Htr as _ He _. subst ev. discriminate Hr.
    + injection Htr as _ _ He.
      destruct pre as [|c pre]; cbn [app] in He; [discriminate He|].
      injection He as _ He. destruct pre; discriminate He.
Qed.

(** C7 as stated fails: when the first [sess.run] raises
    [InvalidArgumentError] and leaving the session then raises
    [RuntimeError], the notebook ends in [RuntimeError]; the exception of
    the library call [sess.run] does not reach the top level. *)
Lemma exception_replaced_on_exit :
  (exists ev,
     In ev (trace Demo.exit_fails_env (notebook 0) 0) /\
     raised_by ev = Some "InvalidArgumentError"%string) /\
  outcome Demo.exit_fails_env (notebook 0) 0 = inl "RuntimeError"%string /\
  ~ reaches_top_unchanged
      (trace Demo.exit_fails_env (notebook 0) 0)
      (outcome Demo.exit_fails_env (notebook 0) 0).
Proof.
  assert (Ho : outcome Demo.exit_fails_env (notebook 0) 0
               = inl "RuntimeError"%string)
    by (vm_compute; reflexivity).
  assert (He : existsb (Demo.raised_named "InvalidArgumentError")
                 (trace Demo.exit_fails_env (notebook 0) 0) = true)
    by (vm_compute; reflexivity).
  apply existsb_exists in He as (ev & Hin & Hn).
  unfold Demo.raised_named in Hn.
  destruct (raised_by ev) as [e|] eqn:Er; [|discriminate Hn].
  apply String.eqb_eq in Hn. subst e.
  split; [exists ev; split; [exact Hin | exact Er]|].
  split; [exact Ho|].
  intros H. specialize (H ev _ Hin Er). rewrite Ho in H. discriminate H.
Qed.

(** ** The columns the training loop feeds *)

Lemma fed_columns_of_row A (row : list A) :
  Z.of_nat (length row) = 10000 ->
  concat (map (fun b => slice row (b * 15) (b * 15 + 15)) (range n_batches))
  = slice row 0 9990 /\
  row = slice row 0 9990 ++ slice row 9990 10000 /\
  Z.of_nat (length (slice row 9990 10000)) = 10.
Proof.
  intros Hc.
  assert (Hs : slice row 0 9990 = firstn (Z.to_nat 9990) row).
  { unfold slice. rewrite !slice_bound_in by lia.
    change (Z.to_nat 0) with 0%nat. now rewrite skipn_O, Nat.sub_0_r. }
  split; [|split].
  - rewrite Hs. change n_batches with (Z.of_nat 666).
    rewrite slices_tile by lia. f_equal.
  - rewrite Hs. unfold slice. rewrite !slice_bound_in by lia.
    rewrite (firstn_all2 (n := (Z.to_nat 10000 - Z.to_nat 9990)%nat))
      by (rewrite length_skipn; lia).
    symmetry. apply firstn_skipn.
  - change 10 with (10000 - 9990). apply slice_length; lia.
Qed.

Lemma batch_shape A (m : matrix A) (b : Z) :
  shape2 m 5 10000 -> 0 <= b < n_batches ->
  shape2 (col_slice m (b * 15) (b * 15 + 15)) 5 15.
Proof.
  intros Sm Hb. pose proof (batch_bounds Hb) as [Hlo Hhi].
  change (total_series_length / batch_size) with 10000 in Hhi.
  change truncated_backprop_steps with 15 in *.
  assert (Hc : shape2 (col_slice m (b * 15) (b * 15 + 15)) 5
                 (b * 15 + 15 - b * 15))
    by (apply (col_slice_shape Sm); lia).
  replace (b * 15 + 15 - b * 15) with 15 in Hc by lia. exact Hc.
Qed.

Section FedColumns.
Variable F : Type.
Variable f0 : F.
Variable W : Type.
Variable env : forall X, call F X -> W -> (exn + X) * W.

(** C9: [n_batches] is 50000 // 5 // 15 = 666, so for every batch index
    [b < n_batches] the slice of columns [b * 15] up to [b * 15 + 15] ends
    at or before column 9990.  In a run that completes with an honest
    generator, each of the 20 epochs has its own [x] and [y] of shape
    (5, 10000); the batches fed to [X_placeholder] and [y_placeholder] are,
    epoch after epoch and for every batch index in order, exactly these
    slices of the epoch's [x] and [y]; each of them has shape (5, 15); and in
    every row of an epoch's [x] or [y] the columns fed are together the first
    9990, so that the row's last 10 columns are never fed. *)
Theorem slices_in_bounds (w : W) :
  honest_choice env ->
  completes env (notebook f0) w = true ->
  n_batches = 666 /\
  (forall b, 0 <= b < n_batches -> 0 <= b * 15 /\ b * 15 + 15 <= 10000 - 10) /\
  exists data : list (matrix Z * matrix Z),
    Forall2 (fun d xy => generateData_from d = inr xy)
            (draws_of (trace env (notebook f0) w)) data /\
    Z.of_nat (length data) = 20 /\
    Forall (fun xy => shape2 (fst xy) 5 10000 /\ shape2 (snd xy) 5 10000)
           data /\
    map (fun r => (fed_to X_placeholder (fed_dict r),
                   fed_to y_placeholder (fed_dict r)))
        (runs_of (trace env (notebook f0) w))
    = concat (map (fun xy =>
        map (fun b =>
               (Some (IntArr F (col_slice (fst xy) (b * 15) (b * 15 + 15))),
                Some (IntArr F (col_slice (snd xy) (b * 15) (b * 15 + 15)))))
            (range n_batches)) data) /\
    Forall (fun xy => forall b, 0 <= b < n_batches ->
              shape2 (col_slice (fst xy) (b * 15) (b * 15 + 15)) 5 15 /\
              shape2 (col_slice (snd xy) (b * 15) (b * 15 + 15)) 5 15)
           data /\
    Forall (fun xy => forall row, In row (fst xy) \/ In row (snd xy) ->
              concat (map (fun b => slice row (b * 15) (b * 15 + 15))
                          (range n_batches))
              = slice row 0 9990 /\
              row = slice row 0 9990 ++ slice row 9990 10000 /\
              Z.of_nat (length (slice row 9990 10000)) = 10)
           data.
Proof.
  intros Hh H. split; [reflexivity|]. split.
  { intros b Hb. apply batch_bounds in Hb. exact Hb. }
  apply completed_notebook_trace in H as (sess & logs & Hlen & Hok & Hd & ->).
  assert (Hshape : Forall (fun xy : matrix Z * matrix Z =>
                             shape2 (fst xy) 5 10000 /\ shape2 (snd xy) 5 10000)
                     (map (fun lg : epoch_log F => (X_of lg, y_of lg)) logs)).
  { apply Forall_map. rewrite Forall_forall in Hok, Hd. apply Forall_forall.
    intros lg Hin. cbn [fst snd].
    destruct (honest_epoch_data Hh (Hok _ Hin) (Hd _ Hin)) as (Sx & Sy & _).
    split; [exact Sx | exact Sy]. }
  exists (map (fun lg => (X_of lg, y_of lg)) logs).
  rewrite draws_of_completed, runs_of_completed by exact Hlen.
  split; [now apply logs_data|].
  split; [rewrite length_map, Hlen, range_length; reflexivity|].
  split; [exact Hshape|].
  split; [|split].
  - rewrite concat_map, !map_map. f_equal.
    apply map_ext_Forall. eapply Forall_impl; [|exact Hok].
    intros lg [_ Hl]. unfold epoch_runs. cbn [fst snd].
    now apply batch_runs_fed.
  - eapply Forall_impl; [|exact Hshape].
    intros xy [Sx Sy] b Hb. split; apply batch_shape; assumption.
  - eapply Forall_impl; [|exact Hshape].
    intros xy [[_ Sx] [_ Sy]] row Hin. apply fed_columns_of_row.
    rewrite Forall_forall in Sx, Sy. destruct Hin as [Hin | Hin]; auto.
Qed.
End FedColumns.

(** Witness of C9 in the small environment. *)
Lemma slices_in_bounds_witness :
  n_batches = 666 /\
  (forall b, 0 <= b < n_batches -> 0 <= b * 15 /\ b * 15 + 15 <= 10000 - 10) /\
  exists data : list (matrix Z * matrix Z),
    Forall2 (fun d xy => generateData_from d = inr xy)
            (draws_of (trace Demo.env (notebook 0) 0)) data /\
    Z.of_nat (length data) = 20 /\
    Forall (fun xy => shape2 (fst xy) 5 10000 /\ shape2 (snd xy) 5 10000)
           data /\
    map (fun r => (fed_to X_placeholder (fed_dict r),
                   fed_to y_placeholder (fed_dict r)))
        (runs_of (trace Demo.env (notebook 0) 0))
    = concat (map (fun xy =>
        map (fun b =>
               (Some (IntArr Z (col_slice (fst xy) (b * 15) (b * 15 + 15))),
                Some (IntArr Z (col_slice (snd xy) (b * 15) (b * 15 + 15)))))
            (range n_batches)) data) /\
    Forall (fun xy => forall b, 0 <= b < n_batches ->
              shape2 (col_slice (fst xy) (b * 15) (b * 15 + 15)) 5 15 /\
              shape2 (col_slice (snd xy) (b * 15) (b * 15 + 15)) 5 15)
           data /\
    Forall (fun xy => forall row, In row (fst xy) \/ In row (snd xy) ->
              concat (map (fun b => slice row (b * 15) (b * 15 + 15))
                          (range n_batches))
              = slice row 0 9990 /\
              row = slice row 0 9990 ++ slice row 9990 10000 /\
              Z.of_nat (length (slice row 9990 10000)) = 10)
           data.
Proof.
  apply (@slices_in_bounds Z 0 Z Demo.env 0).
  - exact demo_honest_choice.
  - apply demo_completes.
Defined.
